(** * The pooled HTTP client agent of client.go

    A shallow embedding of the [Agent] builder/executor of [client.go]:
    the agent's fields, its fluent setters, [Parse], the multipart
    assembler, the three execution calls and the pool discipline.

    Conventions of the embedding.
    - A Go method with receiver [a *Agent] becomes a function that takes
      the receiver's state and gives back its new state; the [*Agent] a
      setter returns is the receiver, so the state given back is the value
      of the returned reference and a chain [a.Set(..).Add(..)] is function
      composition.
    - A nil pointer dereference is the outcome [Panics].
    - Slices are lists of their visible elements ([s[:0]] is the empty
      list; retained capacity is not observable through the agent's code).
    - [a.req] is allocated by [AcquireAgent] and never reassigned, so it is
      a value, not a nullable pointer.  The entries of [a.formFiles] are
      the pointers the caller gave: [None] is a nil descriptor.
    - What the agent consumes from outside the repository (fasthttp's
      transport, the codecs, the file system, the multipart escaper, the
      behaviour of [sync.Pool]) is collected in the record [Env]; every
      theorem holds for every [Env]. *)

From Stdlib Require Import ZArith List String Ascii Bool Lia DecimalString.
Import ListNotations.
Local Open Scope list_scope.
Local Open Scope string_scope.

(** ** Outcomes and errors *)

Inductive result (A : Type) : Type :=
| Done (x : A)
| Panics.
Arguments Done {A} x.
Arguments Panics {A}.

Definition bind {A B : Type} (m : result A) (k : A -> result B) : result B :=
  match m with
  | Done x => k x
  | Panics => Panics
  end.

Notation "x <- m ;; k" := (bind m (fun x => k))
  (at level 61, m at next level, right associativity).

(** Go [error] values, by origin. *)
Inductive error : Type :=
| ErrorInvalidURI                          (* fasthttp.ErrorInvalidURI *)
| ErrUnsupportedProtocol (scheme : string) (* fmt.Errorf("unsupported protocol %q. ...", scheme) *)
| ErrMime (msg : string)                   (* errors.New(..) of mime/multipart *)
| ErrExternal (msg : string).              (* codec, file system and transport errors *)

(** ** fasthttp's request and response, as far as client.go uses them *)

Record URI : Type := mkURI {
  uri_scheme : string;
  uri_host : string;
  uri_path : string;
  uri_queryString : string;
  uri_username : string;
  uri_password : string
}.

Definition URIZero : URI := mkURI "" "" "" "" "" "".

(** [URI.Scheme()]: an empty scheme reads as http. *)
Definition URI_Scheme (u : URI) : string :=
  if (uri_scheme u =? "")%string then "http" else uri_scheme u.

Definition URI_Host (u : URI) : string := uri_host u.

Definition URI_SetHost (s : string) (u : URI) : URI :=
  mkURI (uri_scheme u) s (uri_path u) (uri_queryString u) (uri_username u) (uri_password u).
Definition URI_SetQueryString (s : string) (u : URI) : URI :=
  mkURI (uri_scheme u) (uri_host u) (uri_path u) s (uri_username u) (uri_password u).
Definition URI_SetUsername (s : string) (u : URI) : URI :=
  mkURI (uri_scheme u) (uri_host u) (uri_path u) (uri_queryString u) s (uri_password u).
Definition URI_SetPassword (s : string) (u : URI) : URI :=
  mkURI (uri_scheme u) (uri_host u) (uri_path u) (uri_queryString u) (uri_username u) s.

Record RequestHeader : Type := mkRequestHeader {
  h_method : string;
  h_contentType : string;
  h_userAgent : string;
  h_referer : string;
  h_connectionClose : bool;
  h_cookies : list (string * string);
  h_other : list (string * string)
}.

Definition RequestHeaderZero : RequestHeader :=
  mkRequestHeader "" "" "" "" false [] [].

Definition MethodGet : string := "GET".
Definition MethodHead : string := "HEAD".
Definition MethodPost : string := "POST".

(** [RequestHeader.Method()]: an unset method reads as GET. *)
Definition Header_Method (h : RequestHeader) : string :=
  if (h_method h =? "")%string then MethodGet else h_method h.

Definition Header_SetMethod (m : string) (h : RequestHeader) : RequestHeader :=
  mkRequestHeader m (h_contentType h) (h_userAgent h) (h_referer h)
    (h_connectionClose h) (h_cookies h) (h_other h).
Definition Header_SetContentType (s : string) (h : RequestHeader) : RequestHeader :=
  mkRequestHeader (h_method h) s (h_userAgent h) (h_referer h)
    (h_connectionClose h) (h_cookies h) (h_other h).
Definition Header_SetUserAgent (s : string) (h : RequestHeader) : RequestHeader :=
  mkRequestHeader (h_method h) (h_contentType h) s (h_referer h)
    (h_connectionClose h) (h_cookies h) (h_other h).
Definition Header_SetReferer (s : string) (h : RequestHeader) : RequestHeader :=
  mkRequestHeader (h_method h) (h_contentType h) (h_userAgent h) s
    (h_connectionClose h) (h_cookies h) (h_other h).
Definition Header_SetConnectionClose (h : RequestHeader) : RequestHeader :=
  mkRequestHeader (h_method h) (h_contentType h) (h_userAgent h) (h_referer h)
    true (h_cookies h) (h_other h).

Definition remove_key (k : string) (l : list (string * string)) : list (string * string) :=
  filter (fun kv => negb (fst kv =? k)%string) l.

(** [SetCookie] replaces the value of an existing cookie key in place and
    appends a new key. *)
Fixpoint setArg (k v : string) (l : list (string * string)) : list (string * string) :=
  match l with
  | [] => [(k, v)]
  | (k', v') :: t => if (k' =? k)%string then (k, v) :: t else (k', v') :: setArg k v t
  end.

Definition Header_SetCookie (k v : string) (h : RequestHeader) : RequestHeader :=
  mkRequestHeader (h_method h) (h_contentType h) (h_userAgent h) (h_referer h)
    (h_connectionClose h) (setArg k v (h_cookies h)) (h_other h).

(** [Set] leaves one value under the key, [Add] keeps the earlier ones. *)
Definition Header_Set (k v : string) (h : RequestHeader) : RequestHeader :=
  mkRequestHeader (h_method h) (h_contentType h) (h_userAgent h) (h_referer h)
    (h_connectionClose h) (h_cookies h) (remove_key k (h_other h) ++ [(k, v)])%list.
Definition Header_Add (k v : string) (h : RequestHeader) : RequestHeader :=
  mkRequestHeader (h_method h) (h_contentType h) (h_userAgent h) (h_referer h)
    (h_connectionClose h) (h_cookies h) (h_other h ++ [(k, v)])%list.

(** [SetMultipartFormBoundary] declares the boundary in Content-Type. *)
Definition Header_SetMultipartFormBoundary (b : string) (h : RequestHeader) : RequestHeader :=
  Header_SetContentType ("multipart/form-data; boundary=" ++ b) h.

Record Request : Type := mkRequest {
  r_Header : RequestHeader;
  r_uri : URI;
  r_body : string;
  r_bodyStream : option (string * Z)
}.

Definition RequestZero : Request := mkRequest RequestHeaderZero URIZero "" None.

(** [Request.Reset()] *)
Definition Request_Reset (r : Request) : Request := RequestZero.

(** [Request.URI()] hands out a pointer into the request. *)
Definition Request_URI (r : Request) : option URI := Some (r_uri r).

Definition Request_mapHeader (f : RequestHeader -> RequestHeader) (r : Request) : Request :=
  mkRequest (f (r_Header r)) (r_uri r) (r_body r) (r_bodyStream r).
Definition Request_mapURI (f : URI -> URI) (r : Request) : Request :=
  mkRequest (r_Header r) (f (r_uri r)) (r_body r) (r_bodyStream r).
Definition Request_SetBody (b : string) (r : Request) : Request :=
  mkRequest (r_Header r) (r_uri r) b None.
Definition Request_SetBodyString (b : string) (r : Request) : Request :=
  Request_SetBody b r.
Definition Request_SetBodyStream (s : string) (size : Z) (r : Request) : Request :=
  mkRequest (r_Header r) (r_uri r) "" (Some (s, size)).
(** A write through [Request.BodyWriter()] appends to the body. *)
Definition Request_BodyWrite (s : string) (r : Request) : Request :=
  mkRequest (r_Header r) (r_uri r) (r_body r ++ s) (r_bodyStream r).

Record Response : Type := mkResponse {
  resp_statusCode : Z;
  resp_body : string;
  resp_remoteAddr : string
}.

Definition ResponseZero : Response := mkResponse 0 "" "".
Definition StatusOK : Z := 200.

(** [Response.StatusCode()]: an unset status reads as 200. *)
Definition Response_StatusCode (r : Response) : Z :=
  if (resp_statusCode r =? 0)%Z then StatusOK else resp_statusCode r.
Definition Response_Body (r : Response) : string := resp_body r.
Definition Response_Reset (r : Response) : Response := ResponseZero.

Definition Args : Type := list (string * string).

Definition Args_QueryString (a : Args) : string :=
  String.concat "&" (map (fun kv => fst kv ++ "=" ++ snd kv) a).

Record TLSConfig : Type := mkTLSConfig {
  InsecureSkipVerifyFlag : bool;
  tls_rest : nat
}.

Record fasthttp_HostClient : Type := mkHostClient {
  hc_Addr : string;
  hc_Name : string;
  hc_NoDefaultUserAgentHeader : bool;
  hc_IsTLS : bool;
  hc_TLSConfig : option TLSConfig
}.

Definition HostClient_setTLSConfig (c : option TLSConfig) (hc : fasthttp_HostClient)
  : fasthttp_HostClient :=
  mkHostClient (hc_Addr hc) (hc_Name hc) (hc_NoDefaultUserAgentHeader hc) (hc_IsTLS hc) c.

Inductive Writer : Type :=
| Stdout
| UserWriter (id : nat).

(** ** FormFile and Agent *)

Record FormFile : Type := mkFormFile {
  Fieldname : string;
  ff_Name : string;
  Content : string;
  autoRelease : bool
}.

Definition FormFileZero : FormFile := mkFormFile "" "" "" false.

Record Agent : Type := mkAgent {
  HostClient : option fasthttp_HostClient;
  req : Request;
  customReq : option Request;
  args : option Args;
  timeout : Z;
  errs : list error;
  formFiles : list (option FormFile);
  debugWriter : option Writer;
  maxRedirectsCount : Z;
  boundary : string;
  Name : string;
  NoDefaultUserAgentHeader : bool;
  reuse : bool;
  parsed : bool
}.

(** [&Agent{req: fasthttp.AcquireRequest()}] *)
Definition AgentZero : Agent :=
  mkAgent None RequestZero None None 0 [] [] None 0 "" "" false false false.

Definition set_HostClient (x : option fasthttp_HostClient) (a : Agent) : Agent :=
  mkAgent x (req a) (customReq a) (args a) (timeout a) (errs a) (formFiles a)
    (debugWriter a) (maxRedirectsCount a) (boundary a) (Name a)
    (NoDefaultUserAgentHeader a) (reuse a) (parsed a).
Definition set_req (x : Request) (a : Agent) : Agent :=
  mkAgent (HostClient a) x (customReq a) (args a) (timeout a) (errs a) (formFiles a)
    (debugWriter a) (maxRedirectsCount a) (boundary a) (Name a)
    (NoDefaultUserAgentHeader a) (reuse a) (parsed a).
Definition set_customReq (x : option Request) (a : Agent) : Agent :=
  mkAgent (HostClient a) (req a) x (args a) (timeout a) (errs a) (formFiles a)
    (debugWriter a) (maxRedirectsCount a) (boundary a) (Name a)
    (NoDefaultUserAgentHeader a) (reuse a) (parsed a).
Definition set_timeout (x : Z) (a : Agent) : Agent :=
  mkAgent (HostClient a) (req a) (customReq a) (args a) x (errs a) (formFiles a)
    (debugWriter a) (maxRedirectsCount a) (boundary a) (Name a)
    (NoDefaultUserAgentHeader a) (reuse a) (parsed a).
Definition set_errs (x : list error) (a : Agent) : Agent :=
  mkAgent (HostClient a) (req a) (customReq a) (args a) (timeout a) x (formFiles a)
    (debugWriter a) (maxRedirectsCount a) (boundary a) (Name a)
    (NoDefaultUserAgentHeader a) (reuse a) (parsed a).
Definition set_formFiles (x : list (option FormFile)) (a : Agent) : Agent :=
  mkAgent (HostClient a) (req a) (customReq a) (args a) (timeout a) (errs a) x
    (debugWriter a) (maxRedirectsCount a) (boundary a) (Name a)
    (NoDefaultUserAgentHeader a) (reuse a) (parsed a).
Definition set_debugWriter (x : option Writer) (a : Agent) : Agent :=
  mkAgent (HostClient a) (req a) (customReq a) (args a) (timeout a) (errs a) (formFiles a)
    x (maxRedirectsCount a) (boundary a) (Name a)
    (NoDefaultUserAgentHeader a) (reuse a) (parsed a).
Definition set_maxRedirectsCount (x : Z) (a : Agent) : Agent :=
  mkAgent (HostClient a) (req a) (customReq a) (args a) (timeout a) (errs a) (formFiles a)
    (debugWriter a) x (boundary a) (Name a)
    (NoDefaultUserAgentHeader a) (reuse a) (parsed a).
Definition set_boundary (x : string) (a : Agent) : Agent :=
  mkAgent (HostClient a) (req a) (customReq a) (args a) (timeout a) (errs a) (formFiles a)
    (debugWriter a) (maxRedirectsCount a) x (Name a)
    (NoDefaultUserAgentHeader a) (reuse a) (parsed a).
Definition set_Name (x : string) (a : Agent) : Agent :=
  mkAgent (HostClient a) (req a) (customReq a) (args a) (timeout a) (errs a) (formFiles a)
    (debugWriter a) (maxRedirectsCount a) (boundary a) x
    (NoDefaultUserAgentHeader a) (reuse a) (parsed a).
Definition set_NoDefaultUserAgentHeader (x : bool) (a : Agent) : Agent :=
  mkAgent (HostClient a) (req a) (customReq a) (args a) (timeout a) (errs a) (formFiles a)
    (debugWriter a) (maxRedirectsCount a) (boundary a) (Name a)
    x (reuse a) (parsed a).
Definition set_reuse (x : bool) (a : Agent) : Agent :=
  mkAgent (HostClient a) (req a) (customReq a) (args a) (timeout a) (errs a) (formFiles a)
    (debugWriter a) (maxRedirectsCount a) (boundary a) (Name a)
    (NoDefaultUserAgentHeader a) x (parsed a).
Definition set_parsed (x : bool) (a : Agent) : Agent :=
  mkAgent (HostClient a) (req a) (customReq a) (args a) (timeout a) (errs a) (formFiles a)
    (debugWriter a) (maxRedirectsCount a) (boundary a) (Name a)
    (NoDefaultUserAgentHeader a) (reuse a) x.

(** [append(a.errs, err)] *)
Definition add_err (e : error) (a : Agent) : Agent := set_errs (errs a ++ [e])%list a.

(** ** Parse *)

Definition strHTTP : string := "http".
Definition strHTTPS : string := "https".
Definition defaultUserAgent : string := "fiber".

(** [strconv.Itoa] *)
Definition Itoa (n : Z) : string := NilZero.string_of_int (Z.to_int n).

(** [strings.Index(s, ":") >= 0] *)
Fixpoint has_colon (s : string) : bool :=
  match s with
  | EmptyString => false
  | String c t => if (c =? ":")%char then true else has_colon t
  end.

(** [net.JoinHostPort]: a host with a colon is bracketed. *)
Definition JoinHostPort (h p : string) : string :=
  if has_colon h then "[" ++ h ++ "]:" ++ p else h ++ ":" ++ p.

Definition addMissingPort (addr : string) (isTLS : bool) : string :=
  if has_colon addr then addr
  else
    let port := if isTLS then 443%Z else 80%Z in
    JoinHostPort addr (Itoa port).

(** The request an operation works on: [a.customReq] when set, else [a.req]. *)
Definition effective_req (a : Agent) : Request :=
  match customReq a with
  | Some r => r
  | None => req a
  end.

(** The body of [Parse] from [uri := req.URI()] on, for the pointer [u]
    that [req.URI()] gave; the agent has [parsed] set already. *)
Definition Parse_uri (u : option URI) (a : Agent) : option error * Agent :=
  match u with
  | None => (Some ErrorInvalidURI, a)
  | Some uri =>
      let scheme := URI_Scheme uri in
      let isTLS := (scheme =? strHTTPS)%string in
      if negb isTLS && negb (scheme =? strHTTP)%string
      then (Some (ErrUnsupportedProtocol scheme), a)
      else
        let name :=
          if (Name a =? "")%string && negb (NoDefaultUserAgentHeader a)
          then defaultUserAgent else Name a in
        (None,
         set_HostClient
           (Some (mkHostClient (addMissingPort (URI_Host uri) isTLS) name
                    (NoDefaultUserAgentHeader a) isTLS None)) a)
  end.

Definition Parse (a : Agent) : option error * Agent :=
  if parsed a then (None, a)
  else
    let a := set_parsed true a in
    Parse_uri (Request_URI (effective_req a)) a.

(** The state after [n] further calls of [Parse]. *)
Definition Parse_again (n : nat) (a : Agent) : Agent :=
  Nat.iter n (fun s => snd (Parse s)) a.

(** ** The environment and the world *)

(** One invocation of the bound host transport. *)
Inductive Call : Type :=
| CallDoTimeout (hc : fasthttp_HostClient) (r : Request) (t : Z)
| CallDoRedirects (hc : fasthttp_HostClient) (r : Request) (n : Z)
| CallDo (hc : fasthttp_HostClient) (r : Request).

Definition is_DoRedirects (c : Call) : bool :=
  match c with
  | CallDoRedirects _ _ _ => true
  | _ => false
  end.

(** What client.go consumes from outside the repository.  [transport]
    answers a call given the calls made before it; [choose], given the
    size of a [sync.Pool], picks the entry that [Get] hands out (an index
    out of range is a miss: [Get] returns nil). *)
Record Env : Type := mkEnv {
  Value : Type;
  json_Marshal : Value -> string + error;
  xml_Marshal : Value -> string + error;
  json_Unmarshal : string -> Value -> option error;
  parseURI : string -> URI;
  ReadFile : string -> string + error;
  filepath_Clean : string -> string;
  filepath_Base : string -> string;
  escapeQuotes : string -> string;
  randomBoundary : string;
  transport : list Call -> Call -> Response * option error;
  choose : nat -> nat
}.

Record World : Type := mkWorld {
  agentPool : list Agent;
  formFilePool : list FormFile;
  responsePool : list Response;
  sent : list Call;
  debugOut : list (Writer * Request * Response)
}.

Definition WorldZero : World := mkWorld [] [] [] [] [].

Definition set_agentPool (p : list Agent) (w : World) : World :=
  mkWorld p (formFilePool w) (responsePool w) (sent w) (debugOut w).
Definition set_formFilePool (p : list FormFile) (w : World) : World :=
  mkWorld (agentPool w) p (responsePool w) (sent w) (debugOut w).
Definition set_responsePool (p : list Response) (w : World) : World :=
  mkWorld (agentPool w) (formFilePool w) p (sent w) (debugOut w).
Definition set_sent (s : list Call) (w : World) : World :=
  mkWorld (agentPool w) (formFilePool w) (responsePool w) s (debugOut w).
Definition set_debugOut (d : list (Writer * Request * Response)) (w : World) : World :=
  mkWorld (agentPool w) (formFilePool w) (responsePool w) (sent w) d.

(** ** Pools *)

Fixpoint remove_nth {A : Type} (k : nat) (l : list A) : list A :=
  match l, k with
  | [], _ => []
  | _ :: t, O => t
  | x :: t, S k' => x :: remove_nth k' t
  end.

Definition pool_Get {A : Type} (k : nat) (p : list A) : option A * list A :=
  match nth_error p k with
  | Some x => (Some x, remove_nth k p)
  | None => (None, p)
  end.

Definition pool_Put {A : Type} (x : A) (p : list A) : list A := (p ++ [x])%list.

Definition AcquireAgent (E : Env) (w : World) : Agent * World :=
  match pool_Get (choose E (List.length (agentPool w))) (agentPool w) with
  | (Some v, p) => (v, set_agentPool p w)
  | (None, _) => (AgentZero, w)
  end.

Definition AcquireResponse (E : Env) (w : World) : Response * World :=
  match pool_Get (choose E (List.length (responsePool w))) (responsePool w) with
  | (Some v, p) => (v, set_responsePool p w)
  | (None, _) => (ResponseZero, w)
  end.

Definition ReleaseResponse (resp : Response) (w : World) : World :=
  set_responsePool (pool_Put (Response_Reset resp) (responsePool w)) w.

Definition AcquireFormFile (E : Env) (w : World) : FormFile * World :=
  match pool_Get (choose E (List.length (formFilePool w))) (formFilePool w) with
  | (Some v, p) => (v, set_formFilePool p w)
  | (None, _) => (FormFileZero, w)
  end.

(** The descriptor as [ReleaseFormFile] leaves it. *)
Definition FormFile_scrub (ff : FormFile) : FormFile :=
  mkFormFile "" "" "" false.

Definition ReleaseFormFile (ff : FormFile) (w : World) : World :=
  set_formFilePool (pool_Put (FormFile_scrub ff) (formFilePool w)) w.

(** The loop of [reset] over the attached descriptors: the descriptors
    the agent owns go back to their pool, the others stay with the caller,
    and each slot visited is set to nil.  Reading [ff.autoRelease] of a nil
    descriptor panics; the result says whether that happened and gives the
    slots and the world as the loop left them. *)
Fixpoint reset_files (ffs : list (option FormFile)) (w : World)
  : bool * list (option FormFile) * World :=
  match ffs with
  | [] => (false, [], w)
  | None :: t => (true, None :: t, w)
  | Some ff :: t =>
      let w := if autoRelease ff then ReleaseFormFile ff w else w in
      let '(p, t', w') := reset_files t w in
      (p, None :: t', w')
  end.

(** [reset]: every other field is cleared before the loop; the slice is
    cut to length zero after it, so not when the loop panicked.  The first
    component says whether [reset] panicked. *)
Definition reset (a : Agent) (w : World) : bool * Agent * World :=
  let '(p, slots, w') := reset_files (formFiles a) w in
  (p,
   mkAgent None (Request_Reset (req a)) None None 0 [] (if p then slots else [])
     None 0 "" "" false false false,
   w').

(** [ReleaseAgent]: a panic in [reset] leaves the agent out of the pool. *)
Definition ReleaseAgent (a : Agent) (w : World) : bool * Agent * World :=
  let '(p, a', w') := reset a w in
  if p then (true, a', w')
  else (false, a', set_agentPool (pool_Put a' (agentPool w')) w').

Definition release (a : Agent) (w : World) : bool * Agent * World :=
  if negb (reuse a) then ReleaseAgent a w
  else (false, set_errs [] a, w).

(** ** Builder setters *)

Definition onHeader (f : RequestHeader -> RequestHeader) (a : Agent) : Agent :=
  set_req (Request_mapHeader f (req a)) a.

(** [a.req.URI().f(..)]: the pointer [URI()] gives is dereferenced. *)
Definition onURI (f : URI -> URI) (a : Agent) : result Agent :=
  match Request_URI (req a) with
  | None => Panics
  | Some _ => Done (set_req (Request_mapURI f (req a)) a)
  end.

Definition Set_ (k v : string) (a : Agent) : Agent := onHeader (Header_Set k v) a.
Definition Add (k v : string) (a : Agent) : Agent := onHeader (Header_Add k v) a.
Definition ConnectionClose (a : Agent) : Agent := onHeader Header_SetConnectionClose a.
Definition UserAgent (userAgent : string) (a : Agent) : Agent :=
  onHeader (Header_SetUserAgent userAgent) a.
Definition Cookie (key value : string) (a : Agent) : Agent :=
  onHeader (Header_SetCookie key value) a.

(** Slice indexing panics out of range. *)
Definition index {A : Type} (l : list A) (i : nat) : result A :=
  match nth_error l i with
  | Some x => Done x
  | None => Panics
  end.

(** The values [i] takes in [for i := start; i < stop; i += 2]. *)
Definition loop_by_2 (start stop : nat) : list nat :=
  map (fun j => start + 2 * j) (seq 0 (Nat.div2 (stop - start + 1))).

Definition Cookies (kv : list string) (a : Agent) : result Agent :=
  fold_left
    (fun (st : result Agent) (i : nat) =>
       a <- st ;;
       k <- index kv (i - 1) ;;
       v <- index kv i ;;
       Done (onHeader (Header_SetCookie k v) a))
    (loop_by_2 1 (List.length kv)) (Done a).

Definition Referer (referer : string) (a : Agent) : Agent :=
  onHeader (Header_SetReferer referer) a.
Definition ContentType (contentType : string) (a : Agent) : Agent :=
  onHeader (Header_SetContentType contentType) a.

Definition Host (host : string) (a : Agent) : result Agent :=
  onURI (URI_SetHost host) a.
Definition QueryString (queryString : string) (a : Agent) : result Agent :=
  onURI (URI_SetQueryString queryString) a.
Definition BasicAuth (username password : string) (a : Agent) : result Agent :=
  a <- onURI (URI_SetUsername username) a ;;
  onURI (URI_SetPassword password) a.

Definition BodyString (bodyString : string) (a : Agent) : Agent :=
  set_req (Request_SetBodyString bodyString (req a)) a.
Definition BodyStream (bodyStream : string) (bodySize : Z) (a : Agent) : Agent :=
  set_req (Request_SetBodyStream bodyStream bodySize (req a)) a.
Definition Request_ (r : option Request) (a : Agent) : Agent := set_customReq r a.

Definition MIMEApplicationJSON : string := "application/json".
Definition MIMEApplicationXML : string := "application/xml".
Definition MIMEApplicationForm : string := "application/x-www-form-urlencoded".

Definition JSON (E : Env) (v : Value E) (a : Agent) : Agent :=
  let a := onHeader (Header_SetContentType MIMEApplicationJSON) a in
  match json_Marshal E v with
  | inr err => add_err err a
  | inl body => set_req (Request_SetBody body (req a)) a
  end.

Definition XML (E : Env) (v : Value E) (a : Agent) : Agent :=
  let a := onHeader (Header_SetContentType MIMEApplicationXML) a in
  match xml_Marshal E v with
  | inr err => add_err err a
  | inl body => set_req (Request_SetBody body (req a)) a
  end.

Definition Form (args : option Args) (a : Agent) : Agent :=
  let a := onHeader (Header_SetContentType MIMEApplicationForm) a in
  match args with
  | Some l => set_req (Request_SetBody (Args_QueryString l) (req a)) a
  | None => a
  end.

Definition FileData (ffs : list (option FormFile)) (a : Agent) : Agent :=
  set_formFiles (formFiles a ++ ffs)%list a.

Definition SendFile (E : Env) (filename : string) (fieldname : list string)
    (a : Agent) (w : World) : Agent * World :=
  match ReadFile E (filepath_Clean E filename) with
  | inr err => (add_err err a, w)
  | inl content =>
      let '(ff, w) := AcquireFormFile E w in
      let explicit :=
        match fieldname with
        | f :: _ => negb (f =? "")%string
        | [] => false
        end in
      let fname :=
        if explicit then hd "" fieldname
        else "file" ++ Itoa (Z.of_nat (List.length (formFiles a)) + 1) in
      let ff := mkFormFile fname (filepath_Base E filename) (Content ff ++ content) true in
      (set_formFiles (formFiles a ++ [Some ff])%list a, w)
  end.

Definition SendFiles (E : Env) (filenamesAndFieldnames : list string)
    (a : Agent) (w : World) : result (Agent * World) :=
  let pairs := List.length filenamesAndFieldnames in
  let l :=
    if Nat.odd pairs then (filenamesAndFieldnames ++ [""])%list
    else filenamesAndFieldnames in
  fold_left
    (fun (st : result (Agent * World)) (i : nat) =>
       s <- st ;;
       filename <- index l i ;;
       fieldname <- index l (i + 1) ;;
       Done (SendFile E filename [fieldname] (fst s) (snd s)))
    (loop_by_2 0 pairs) (Done (a, w)).

Definition Boundary (b : string) (a : Agent) : Agent := set_boundary b a.

(** ** mime/multipart's writer over the request body *)

Definition CRLF : string := String (ascii_of_nat 13) (String (ascii_of_nat 10) "").

Record multipart_Writer : Type := mkWriter {
  mw_boundary : string;
  mw_lastpart : bool
}.

Definition NewWriter (E : Env) : multipart_Writer := mkWriter (randomBoundary E) false.

Definition in_range (lo hi : nat) (c : ascii) : bool :=
  (lo <=? nat_of_ascii c)%nat && (nat_of_ascii c <=? hi)%nat.

Fixpoint mem_ascii (c : ascii) (s : string) : bool :=
  match s with
  | EmptyString => false
  | String d t => (c =? d)%char || mem_ascii c t
  end.

(** One character of a boundary; [last] says it is the final one. *)
Definition boundary_char_ok (last : bool) (c : ascii) : bool :=
  in_range 65 90 c || in_range 97 122 c || in_range 48 57 c
  || mem_ascii c "'()+_,-./:=?"
  || ((c =? " ")%char && negb last).

Fixpoint boundary_chars_ok (s : string) : bool :=
  match s with
  | EmptyString => true
  | String c t => boundary_char_ok (t =? "")%string c && boundary_chars_ok t
  end.

Definition SetBoundary (b : string) (mw : multipart_Writer)
  : option error * multipart_Writer :=
  if mw_lastpart mw then (Some (ErrMime "mime: SetBoundary called after write"), mw)
  else if (String.length b <? 1)%nat || (70 <? String.length b)%nat
  then (Some (ErrMime "mime: invalid boundary length"), mw)
  else if negb (boundary_chars_ok b)
  then (Some (ErrMime "mime: invalid boundary character"), mw)
  else (None, mkWriter b (mw_lastpart mw)).

(** A MIME header: one value per key, written out in key order. *)
Fixpoint MIMEHeader_Set (k v : string) (h : list (string * string))
  : list (string * string) :=
  match h with
  | [] => [(k, v)]
  | (k', v') :: t =>
      if (k' =? k)%string then (k, v) :: t
      else if String.ltb k k' then (k, v) :: (k', v') :: t
      else (k', v') :: MIMEHeader_Set k v t
  end.

Definition header_lines (h : list (string * string)) : string :=
  String.concat "" (map (fun kv => fst kv ++ ": " ++ snd kv ++ CRLF) h).

(** The writes of the multipart writer land in the request body and
    cannot fail there, so every operation reports a nil error. *)
Definition CreatePart (header : list (string * string))
    (mw : multipart_Writer) (r : Request) : option error * multipart_Writer * Request :=
  let delim :=
    if mw_lastpart mw then CRLF ++ "--" ++ mw_boundary mw ++ CRLF
    else "--" ++ mw_boundary mw ++ CRLF in
  (None, mkWriter (mw_boundary mw) true,
   Request_BodyWrite (delim ++ header_lines header ++ CRLF) r).

Definition quote (s : string) : string := String (ascii_of_nat 34) s ++ String (ascii_of_nat 34) "".

Definition CreateFormField (E : Env) (fieldname : string)
    (mw : multipart_Writer) (r : Request) : option error * multipart_Writer * Request :=
  let h := MIMEHeader_Set "Content-Disposition"
             ("form-data; name=" ++ quote (escapeQuotes E fieldname)) [] in
  CreatePart h mw r.

Definition CreateFormFile (E : Env) (fieldname filename : string)
    (mw : multipart_Writer) (r : Request) : option error * multipart_Writer * Request :=
  let h := MIMEHeader_Set "Content-Disposition"
             ("form-data; name=" ++ quote (escapeQuotes E fieldname)
              ++ "; filename=" ++ quote (escapeQuotes E filename)) [] in
  let h := MIMEHeader_Set "Content-Type" "application/octet-stream" h in
  CreatePart h mw r.

(** [part.Write] *)
Definition part_Write (d : string) (r : Request) : option error * Request :=
  (None, Request_BodyWrite d r).

Definition WriteField (E : Env) (fieldname value : string)
    (mw : multipart_Writer) (r : Request) : option error * multipart_Writer * Request :=
  match CreateFormField E fieldname mw r with
  | (Some err, mw, r) => (Some err, mw, r)
  | (None, mw, r) =>
      let '(err, r) := part_Write value r in
      (err, mw, r)
  end.

Definition Writer_Close (mw : multipart_Writer) (r : Request)
  : option error * multipart_Writer * Request :=
  (None, mkWriter (mw_boundary mw) false,
   Request_BodyWrite (CRLF ++ "--" ++ mw_boundary mw ++ "--" ++ CRLF) r).

Definition note_err (err : option error) (a : Agent) : Agent :=
  match err with
  | Some e => add_err e a
  | None => a
  end.

Definition MultipartForm_field (E : Env) (st : multipart_Writer * Agent)
    (kv : string * string) : multipart_Writer * Agent :=
  let '(mw, a) := st in
  let '(err, mw, r) := WriteField E (fst kv) (snd kv) mw (req a) in
  (mw, note_err err (set_req r a)).

Definition MultipartForm_file (E : Env) (st : multipart_Writer * Agent)
    (ff : FormFile) : multipart_Writer * Agent :=
  let '(mw, a) := st in
  match CreateFormFile E (Fieldname ff) (ff_Name ff) mw (req a) with
  | (Some err, mw, r) => (mw, add_err err (set_req r a))
  | (None, mw, r) =>
      let '(err, r) := part_Write (Content ff) r in
      (mw, note_err err (set_req r a))
  end.

(** The loop over the attached descriptors: reading the field name of a
    nil descriptor panics. *)
Definition MultipartForm_files (E : Env) (ffs : list (option FormFile))
    (st : multipart_Writer * Agent) : result (multipart_Writer * Agent) :=
  fold_left
    (fun (r : result (multipart_Writer * Agent)) (off : option FormFile) =>
       st <- r ;;
       match off with
       | None => Panics
       | Some ff => Done (MultipartForm_file E st ff)
       end)
    ffs (Done st).

Definition MultipartForm (E : Env) (args : option Args) (a : Agent) : result Agent :=
  let mw := NewWriter E in
  let '(err, mw) :=
    if negb (boundary a =? "")%string then SetBoundary (boundary a) mw
    else (None, mw) in
  match err with
  | Some e => Done (add_err e a)
  | None =>
      let a := onHeader (Header_SetMultipartFormBoundary (mw_boundary mw)) a in
      let st :=
        match args with
        | Some l => fold_left (MultipartForm_field E) l (mw, a)
        | None => (mw, a)
        end in
      st <- MultipartForm_files E (formFiles a) st ;;
      let '(mw, a) := st in
      let '(err, mw, r) := Writer_Close mw (req a) in
      Done (note_err err (set_req r a))
  end.

(** ** Agent settings *)

Definition Debug (w : list (option Writer)) (a : Agent) : Agent :=
  let a := set_debugWriter (Some Stdout) a in
  match w with
  | w0 :: _ => set_debugWriter w0 a
  | [] => a
  end.

Definition Timeout (t : Z) (a : Agent) : Agent := set_timeout t a.
Definition Reuse (a : Agent) : Agent := set_reuse true a.

(** Both TLS setters go through [a.HostClient], which is nil until
    [Parse] has bound a transport. *)
Definition InsecureSkipVerify (a : Agent) : result Agent :=
  match HostClient a with
  | None => Panics
  | Some hc =>
      match hc_TLSConfig hc with
      | None =>
          Done (set_HostClient
                  (Some (HostClient_setTLSConfig (Some (mkTLSConfig true 0)) hc)) a)
      | Some c =>
          Done (set_HostClient
                  (Some (HostClient_setTLSConfig (Some (mkTLSConfig true (tls_rest c))) hc)) a)
      end
  end.

Definition TLSConfig_ (config : option TLSConfig) (a : Agent) : result Agent :=
  match HostClient a with
  | None => Panics
  | Some hc => Done (set_HostClient (Some (HostClient_setTLSConfig config hc)) a)
  end.

Definition MaxRedirectsCount (count : Z) (a : Agent) : Agent :=
  set_maxRedirectsCount count a.

(** ** Execution *)

Inductive outcome : Type :=
| Returned (code : Z) (body : string) (errs : list error)
| Panicked.

(** A method call on [a.HostClient]: with no transport bound the call
    panics before anything is sent. *)
Definition HostClient_call (E : Env) (hc : option fasthttp_HostClient)
    (mk : fasthttp_HostClient -> Call) (resp : Response) (w : World)
  : result (option error) * Response * World :=
  match hc with
  | None => (Panics, resp, w)
  | Some c =>
      let call := mk c in
      let '(resp', err) := transport E (sent w) call in
      (Done err, resp', set_sent (sent w ++ [call])%list w)
  end.

Definition wants_redirects (a : Agent) (r : Request) : bool :=
  (0 <? maxRedirectsCount a)%Z
  && ((Header_Method (r_Header r) =? MethodGet)%string
      || (Header_Method (r_Header r) =? MethodHead)%string).

(** Lines 536-554 of [Bytes]: the sends, with the errors they add to the
    (empty) list of the call. *)
Definition Bytes_sends (E : Env) (a : Agent) (r : Request) (resp : Response) (w : World)
  : result (list error) * Response * World :=
  let st1 :=
    if (0 <? timeout a)%Z
    then HostClient_call E (HostClient a) (fun c => CallDoTimeout c r (timeout a)) resp w
    else (Done None, resp, w) in
  match st1 with
  | (Panics, resp, w) => (Panics, resp, w)
  | (Done (Some err), resp, w) => (Done [err], resp, w)
  | (Done None, resp, w) =>
      let st2 :=
        if wants_redirects a r
        then HostClient_call E (HostClient a)
               (fun c => CallDoRedirects c r (maxRedirectsCount a)) resp w
        else (Done None, resp, w) in
      match st2 with
      | (Panics, resp, w) => (Panics, resp, w)
      | (Done (Some err), resp, w) => (Done [err], resp, w)
      | (Done None, resp, w) =>
          match HostClient_call E (HostClient a) (fun c => CallDo c r) resp w with
          | (Panics, resp, w) => (Panics, resp, w)
          | (Done (Some err), resp, w) => (Done [err], resp, w)
          | (Done None, resp, w) => (Done [], resp, w)
          end
      end
  end.

Definition printDebugInfo (r : Request) (resp : Response) (dw : Writer) (w : World) : World :=
  set_debugOut (debugOut w ++ [(dw, r, resp)])%list w.

(** [Bytes] past its fail-fast return (lines 504-554); the deferred calls
    run on a panic as on a return. *)
Definition Bytes_run (E : Env) (customResp : list Response) (a : Agent) (w : World)
  : outcome * Agent * World :=
  let r := effective_req a in
  let '(resp, releaseResp, w) :=
    match customResp with
    | resp :: _ => (resp, false, w)
    | [] => let '(resp, w) := AcquireResponse E w in (resp, true, w)
    end in
  let '(sends, resp, w) := Bytes_sends E a r resp w in
  let w :=
    match debugWriter a with
    | Some dw => printDebugInfo r resp dw w
    | None => w
    end in
  let body := Response_Body resp in
  let w := if releaseResp then ReleaseResponse resp w else w in
  let '(p, a', w') := release a w in
  match sends with
  | Panics => (Panicked, a', w')
  | Done errs1 =>
      if p then (Panicked, a', w')
      else
        let code :=
          if (List.length errs1 =? 0)%nat then Response_StatusCode resp else 0%Z in
        (Returned code body errs1, a', w')
  end.

(** [Bytes]: [a.release()] is deferred first, so it runs last, and a panic
    in it is the outcome of the call. *)
Definition Bytes (E : Env) (customResp : list Response) (a : Agent) (w : World)
  : outcome * Agent * World :=
  let errs0 := ([] ++ errs a)%list in
  if (0 <? List.length errs0)%nat then
    let '(p, a', w') := release a w in
    (if p then Panicked else Returned 0 "" errs0, a', w')
  else Bytes_run E customResp a w.

Definition String_ (E : Env) (resp : list Response) (a : Agent) (w : World)
  : outcome * Agent * World :=
  Bytes E resp a w.

Definition Struct (E : Env) (v : Value E) (resp : list Response) (a : Agent) (w : World)
  : outcome * Agent * World :=
  let '(o, a', w') := Bytes E resp a w in
  match o with
  | Panicked => (Panicked, a', w')
  | Returned code body errs1 =>
      match json_Unmarshal E body v with
      | Some err => (Returned code body (errs1 ++ [err])%list, a', w')
      | None => (Returned code body errs1, a', w')
      end
  end.

(** ** The client factory *)

Record Client : Type := mkClient {
  c_UserAgent : string;
  c_NoDefaultUserAgentHeader : bool
}.

Definition defaultClient : Client := mkClient "" false.

Definition createAgent (E : Env) (c : Client) (method url : string) (w : World)
  : Agent * World :=
  let '(a, w) := AcquireAgent E w in
  let a := onHeader (Header_SetMethod method) a in
  let a := set_req (Request_mapURI (fun _ => parseURI E url) (req a)) a in
  let a := set_Name (c_UserAgent c) a in
  let a := set_NoDefaultUserAgentHeader (c_NoDefaultUserAgentHeader c) a in
  let '(err, a) := Parse a in
  (note_err err a, w).

Definition Get (E : Env) (url : string) (w : World) : Agent * World :=
  createAgent E defaultClient MethodGet url w.
Definition Post (E : Env) (url : string) (w : World) : Agent * World :=
  createAgent E defaultClient MethodPost url w.

(** ** Builder calls as data *)

(** One call of the builder surface with its arguments; a chain of calls
    is a list of them. *)
Inductive setter (E : Env) : Type :=
| CallSet (k v : string)
| CallAdd (k v : string)
| CallConnectionClose
| CallUserAgent (userAgent : string)
| CallCookie (key value : string)
| CallCookies (kv : list string)
| CallReferer (referer : string)
| CallContentType (contentType : string)
| CallHost (host : string)
| CallQueryString (queryString : string)
| CallBasicAuth (username password : string)
| CallBodyString (bodyString : string)
| CallBodyStream (bodyStream : string) (bodySize : Z)
| CallRequest (r : option Request)
| CallJSON (v : Value E)
| CallXML (v : Value E)
| CallForm (args : option Args)
| CallFileData (ffs : list (option FormFile))
| CallSendFile (filename : string) (fieldname : list string)
| CallSendFiles (filenamesAndFieldnames : list string)
| CallBoundary (b : string)
| CallMultipartForm (args : option Args)
| CallDebug (w : list (option Writer))
| CallTimeout (t : Z)
| CallReuse
| CallInsecureSkipVerify
| CallTLSConfig (config : option TLSConfig)
| CallMaxRedirectsCount (count : Z).

Arguments CallSet {E} k v.
Arguments CallAdd {E} k v.
Arguments CallConnectionClose {E}.
Arguments CallUserAgent {E} userAgent.
Arguments CallCookie {E} key value.
Arguments CallCookies {E} kv.
Arguments CallReferer {E} referer.
Arguments CallContentType {E} contentType.
Arguments CallHost {E} host.
Arguments CallQueryString {E} queryString.
Arguments CallBasicAuth {E} username password.
Arguments CallBodyString {E} bodyString.
Arguments CallBodyStream {E} bodyStream bodySize.
Arguments CallRequest {E} r.
Arguments CallJSON {E} v.
Arguments CallXML {E} v.
Arguments CallForm {E} args.
Arguments CallFileData {E} ffs.
Arguments CallSendFile {E} filename fieldname.
Arguments CallSendFiles {E} filenamesAndFieldnames.
Arguments CallBoundary {E} b.
Arguments CallMultipartForm {E} args.
Arguments CallDebug {E} w.
Arguments CallTimeout {E} t.
Arguments CallReuse {E}.
Arguments CallInsecureSkipVerify {E}.
Arguments CallTLSConfig {E} config.
Arguments CallMaxRedirectsCount {E} count.

Definition pure_setter (a : Agent) (w : World) : result (Agent * World) := Done (a, w).

Definition agent_setter (r : result Agent) (w : World) : result (Agent * World) :=
  a <- r ;; Done (a, w).

Definition run_setter {E : Env} (s : setter E) (a : Agent) (w : World)
  : result (Agent * World) :=
  match s with
  | CallSet k v => pure_setter (Set_ k v a) w
  | CallAdd k v => pure_setter (Add k v a) w
  | CallConnectionClose => pure_setter (ConnectionClose a) w
  | CallUserAgent s => pure_setter (UserAgent s a) w
  | CallCookie k v => pure_setter (Cookie k v a) w
  | CallCookies kv => agent_setter (Cookies kv a) w
  | CallReferer s => pure_setter (Referer s a) w
  | CallContentType s => pure_setter (ContentType s a) w
  | CallHost s => agent_setter (Host s a) w
  | CallQueryString s => agent_setter (QueryString s a) w
  | CallBasicAuth u p => agent_setter (BasicAuth u p a) w
  | CallBodyString s => pure_setter (BodyString s a) w
  | CallBodyStream s n => pure_setter (BodyStream s n a) w
  | CallRequest r => pure_setter (Request_ r a) w
  | CallJSON v => pure_setter (JSON E v a) w
  | CallXML v => pure_setter (XML E v a) w
  | CallForm args => pure_setter (Form args a) w
  | CallFileData ffs => pure_setter (FileData ffs a) w
  | CallSendFile f fs => Done (SendFile E f fs a w)
  | CallSendFiles l => SendFiles E l a w
  | CallBoundary b => pure_setter (Boundary b a) w
  | CallMultipartForm args => agent_setter (MultipartForm E args a) w
  | CallDebug ws => pure_setter (Debug ws a) w
  | CallTimeout t => pure_setter (Timeout t a) w
  | CallReuse => pure_setter (Reuse a) w
  | CallInsecureSkipVerify => agent_setter (InsecureSkipVerify a) w
  | CallTLSConfig c => agent_setter (TLSConfig_ c a) w
  | CallMaxRedirectsCount n => pure_setter (MaxRedirectsCount n a) w
  end.

(** The setters that reach through [a.HostClient]. *)
Definition uses_HostClient {E : Env} (s : setter E) : bool :=
  match s with
  | CallInsecureSkipVerify | CallTLSConfig _ => true
  | _ => false
  end.

(** The setter that reads through the attached descriptors. *)
Definition reads_formFiles {E : Env} (s : setter E) : bool :=
  match s with
  | CallMultipartForm _ => true
  | _ => false
  end.

(** No attached descriptor is nil. *)
Definition no_nil_file (a : Agent) : Prop := ~ In None (formFiles a).

Fixpoint run_chain {E : Env} (l : list (setter E)) (a : Agent) (w : World)
  : result (Agent * World) :=
  match l with
  | [] => Done (a, w)
  | s :: t => st <- run_setter s a w ;; run_chain t (fst st) (snd st)
  end.

(** [errs] grows at its end only. *)
Definition errs_extended (a a' : Agent) : Prop :=
  exists new, errs a' = (errs a ++ new)%list.

(** ** A concrete environment and concrete agents *)

(** Go's [escapeQuotes]: backslash and double quote get a backslash. *)
Fixpoint example_escapeQuotes (s : string) : string :=
  match s with
  | EmptyString => EmptyString
  | String c t =>
      if (c =? ascii_of_nat 92)%char || (c =? ascii_of_nat 34)%char
      then String (ascii_of_nat 92) (String c (example_escapeQuotes t))
      else String c (example_escapeQuotes t)
  end.

Definition example_ReadFile (name : string) : string + error :=
  if (name =? "a.txt")%string then inl "alpha"
  else if (name =? "b.txt")%string then inl "beta"
  else inr (ErrExternal "open: no such file or directory").

(** A decoder rejects the empty text, which holds no JSON value. *)
Definition example_Unmarshal (body : string) (v : string) : option error :=
  if (body =? "")%string then Some (ErrExternal "unexpected end of JSON input")
  else None.

(** The scheme is what stands before the first colon. *)
Fixpoint example_scheme (s : string) : string :=
  match s with
  | EmptyString => EmptyString
  | String c t => if (c =? ":")%char then EmptyString else String c (example_scheme t)
  end.

Definition example_parseURI (url : string) : URI :=
  let sch := example_scheme url in
  mkURI sch (substring (String.length sch + 3) (String.length url) url) "/" "" "" "".

Definition example_response : Response := mkResponse 200 "pong" "93.184.216.34:80".

(** A transport whose every send succeeds. *)
Definition exampleEnv : Env :=
  mkEnv string (fun v => inl v) (fun v => inl v) example_Unmarshal example_parseURI
    example_ReadFile (fun s => s) (fun s => s) example_escapeQuotes
    "7d8f3c2a9b1e4f60" (fun _ _ => (example_response, None)) (fun _ => 0).

Definition ftpAgent : Agent :=
  set_req (Request_mapURI (fun _ => example_parseURI "ftp://example.com") RequestZero)
    AgentZero.

(** [Get("http://example.com").Timeout(time.Second)] on empty pools. *)
Definition timeoutAgent : Agent :=
  let a := fst (Get exampleEnv "http://example.com" WorldZero) in Timeout 1000000000 a.

(** [Get("ftp://example.com")]: the agent carries the error of [Parse]. *)
Definition failedAgent : Agent := fst (Get exampleEnv "ftp://example.com" WorldZero).

(** [Post("http://example.com").MaxRedirectsCount(3)] *)
Definition postAgent : Agent :=
  MaxRedirectsCount 3 (fst (Post exampleEnv "http://example.com" WorldZero)).

Definition example_file : FormFile := mkFormFile "upload" "notes.txt" "hello" false.

(** ** The layout of a multipart body *)

(** The boundary [MultipartForm] writes with: the agent's when it has
    one, else the one the writer drew. *)
Definition multipart_boundary (E : Env) (a : Agent) : string :=
  if (boundary a =? "")%string then randomBoundary E else boundary a.

(** A part as it stands between two delimiter lines: header lines, an
    empty line, the content. *)
Definition field_part (E : Env) (name value : string) : string :=
  "Content-Disposition: form-data; name=" ++ quote (escapeQuotes E name) ++ CRLF
  ++ CRLF ++ value.

Definition file_part (E : Env) (ff : FormFile) : string :=
  "Content-Disposition: form-data; name=" ++ quote (escapeQuotes E (Fieldname ff))
  ++ "; filename=" ++ quote (escapeQuotes E (ff_Name ff)) ++ CRLF
  ++ "Content-Type: application/octet-stream" ++ CRLF
  ++ CRLF ++ Content ff.

Definition delimiter (b : string) : string := "--" ++ b ++ CRLF.
Definition close_delimiter (b : string) : string := "--" ++ b ++ "--" ++ CRLF.

(** ** Vocabulary for statements about the agent *)

(** The (key, value) pairs of a flat list; a trailing key has no value. *)
Fixpoint pairs_of (l : list string) : list (string * string) :=
  match l with
  | k :: v :: t => (k, v) :: pairs_of t
  | _ => []
  end.

(** The same with a trailing name paired with the empty string. *)
Fixpoint pairs_padded (l : list string) : list (string * string) :=
  match l with
  | f :: g :: t => (f, g) :: pairs_padded t
  | [f] => [(f, "")]
  | [] => []
  end.

(** A multipart body as a text: the parts, each behind a delimiter line,
    then the closing delimiter. *)
Inductive part : Type :=
| FieldPart (name value : string)
| FilePart (ff : FormFile).

Definition part_text (E : Env) (p : part) : string :=
  match p with
  | FieldPart k v => field_part E k v
  | FilePart ff => file_part E ff
  end.

Fixpoint parts_text (E : Env) (b : string) (first : bool) (ps : list part) : string :=
  match ps with
  | [] => ""
  | p :: t =>
      (if first then "" else CRLF) ++ delimiter b ++ part_text E p
      ++ parts_text E b false t
  end.

Definition multipart_text (E : Env) (b : string) (ps : list part) : string :=
  parts_text E b true ps ++ CRLF ++ close_delimiter b.

(** The failures a setter call detects, in the order it meets them: a
    value the codec cannot marshal, a file that cannot be read, a boundary
    the multipart writer refuses. *)
Definition read_failure (E : Env) (filename : string) : list error :=
  match ReadFile E (filepath_Clean E filename) with
  | inr e => [e]
  | inl _ => []
  end.

Definition detected_failures {E : Env} (s : setter E) (a : Agent) : list error :=
  match s with
  | CallJSON v =>
      match json_Marshal E v with
      | inr e => [e]
      | inl _ => []
      end
  | CallXML v =>
      match xml_Marshal E v with
      | inr e => [e]
      | inl _ => []
      end
  | CallSendFile filename _ => read_failure E filename
  | CallSendFiles l => flat_map (fun p => read_failure E (fst p)) (pairs_padded l)
  | CallMultipartForm _ =>
      if (boundary a =? "")%string then []
      else
        match fst (SetBoundary (boundary a) (NewWriter E)) with
        | Some e => [e]
        | None => []
        end
  | _ => []
  end.

(** A [FileData] call that hands over a nil descriptor. *)
Definition attaches_nil {E : Env} (s : setter E) : bool :=
  match s with
  | CallFileData ffs =>
      existsb (fun f => match f with None => true | Some _ => false end) ffs
  | _ => false
  end.

(** Every pooled object is in its zero state. *)
Definition pools_zero (w : World) : Prop :=
  Forall (eq AgentZero) (agentPool w)
  /\ Forall (eq FormFileZero) (formFilePool w)
  /\ Forall (eq ResponseZero) (responsePool w).

(** ** The request side of the context *)

(** [strings.Split(s, sep)] for a one-byte separator. *)
Fixpoint Split (sep : ascii) (s : string) : list string :=
  match s with
  | EmptyString => [""]
  | String c t =>
      if (c =? sep)%char then "" :: Split sep t
      else
        match Split sep t with
        | h :: r => String c h :: r
        | [] => [String c ""]
        end
  end.

(** [strings.HasPrefix(s, p)] *)
Definition HasPrefix (s p : string) : bool := String.prefix p s.

(** [strings.IndexByte(s, c)]; [None] stands for -1. *)
Fixpoint IndexByte (c : ascii) (s : string) : option nat :=
  match s with
  | EmptyString => None
  | String d t =>
      if (d =? c)%char then Some 0
      else
        match IndexByte c t with
        | Some n => Some (S n)
        | None => None
        end
  end.

(** The number of bytes [c] in [s]. *)
Fixpoint count_byte (c : ascii) (s : string) : nat :=
  match s with
  | EmptyString => 0
  | String d t => (if (d =? c)%char then 1 else 0) + count_byte c t
  end.

(** What the context helpers take from the Go library: Unicode-aware
    trimming and case folding, the base64 decoder and the MIME table. *)
Record CtxLib : Type := mkCtxLib {
  TrimSpace : string -> string;
  EqualFold : string -> string -> bool;
  base64_DecodeString : string -> string + error;
  mime_ExtensionsByType : string -> list string
}.

(** The request a [Ctx] wraps, by what fasthttp's accessors return:
    [Request.Header.Peek], [URI().Host()], [IsTLS()]; and the route
    parameters with their values. *)
Record Ctx : Type := mkCtx {
  ctx_Peek : string -> string;
  ctx_Host : string;
  ctx_IsTLS : bool;
  ctx_params : option (list string);
  ctx_values : list string
}.

Definition HeaderAcceptCharset : string := "Accept-Charset".
Definition HeaderAcceptEncoding : string := "Accept-Encoding".
Definition HeaderAcceptLanguage : string := "Accept-Language".
Definition HeaderAuthorization : string := "Authorization".
Definition HeaderContentType : string := "Content-Type".
Definition HeaderXForwardedFor : string := "X-Forwarded-For".
Definition HeaderXRequestedWith : string := "X-Requested-With".

Module ctx.

Definition Get (c : Ctx) (key : string) : string :=
  let key := if (key =? "referrer")%string then "referer" else key in
  ctx_Peek c key.

(** The inner loop of the three [Accepts...] helpers: whether some
    spec makes the loop return [offer]. *)
Fixpoint spec_loop (L : CtxLib) (offer : string) (specs : list string) : bool :=
  match specs with
  | [] => false
  | spec :: t =>
      let spec := TrimSpace L spec in
      if HasPrefix spec "*" then true
      else if HasPrefix spec offer then true
      else spec_loop L offer t
  end.

Fixpoint offer_loop (L : CtxLib) (offers specs : list string) : string :=
  match offers with
  | [] => ""
  | offer :: t => if spec_loop L offer specs then offer else offer_loop L t specs
  end.

(** The body the three helpers share, for the header they read. *)
Definition accepts (L : CtxLib) (c : Ctx) (header : string) (offers : list string)
  : string :=
  match offers with
  | [] => ""
  | first :: _ =>
      let h := Get c header in
      if (h =? "")%string then first
      else offer_loop L offers (Split "," h)
  end.

Definition AcceptsCharsets (L : CtxLib) (c : Ctx) (offers : list string) : string :=
  accepts L c HeaderAcceptCharset offers.
Definition AcceptsEncodings (L : CtxLib) (c : Ctx) (offers : list string) : string :=
  accepts L c HeaderAcceptEncoding offers.
Definition AcceptsLanguages (L : CtxLib) (c : Ctx) (offers : list string) : string :=
  accepts L c HeaderAcceptLanguage offers.

Definition Hostname (c : Ctx) : string := ctx_Host c.

Definition Protocol (c : Ctx) : string :=
  if ctx_IsTLS c then "https" else "http".

Definition BaseURL (c : Ctx) : string := Protocol c ++ "://" ++ Hostname c.

Definition Secure (c : Ctx) : bool := ctx_IsTLS c.

Definition deprecated_BasicAuth : string :=
  "Fiber deprecated c.BasicAuth(), this will be removed in v2 and be available as a separate middleware".

(** [BasicAuth]: the line it prints, then [(user, pass, ok)]. *)
Definition BasicAuth (L : CtxLib) (c : Ctx) : string * (string * string * bool) :=
  let none := ("", "", false) in
  let auth := Get c HeaderAuthorization in
  (deprecated_BasicAuth,
   if (auth =? "")%string then none
   else
     let prefix := "Basic " in
     if (String.length auth <? String.length prefix)%nat
        || negb (EqualFold L (substring 0 (String.length prefix) auth) prefix)
     then none
     else
       match base64_DecodeString L
               (substring (String.length prefix)
                  (String.length auth - String.length prefix) auth) with
       | inr _ => none
       | inl cs =>
           match IndexByte ":" cs with
           | None => none
           | Some s =>
               (substring 0 s cs,
                substring (s + 1) (String.length cs - (s + 1)) cs, true)
           end
       end).

Definition IPs (L : CtxLib) (c : Ctx) : list string :=
  map (TrimSpace L) (Split "," (Get c HeaderXForwardedFor)).

(** [IS]: [ext[0]] is read before anything else. *)
Definition IS (L : CtxLib) (c : Ctx) (ext : string) : result bool :=
  match ext with
  | EmptyString => Panics
  | String c0 _ =>
      let ext := if negb (c0 =? ".")%char then "." ++ ext else ext in
      let exts := mime_ExtensionsByType L (Get c HeaderContentType) in
      Done (existsb (fun item => (item =? ext)%string) exts)
  end.

(** The loop of [Params] from index [i], over the names not yet
    compared. *)
Fixpoint Params_from (values : list string) (key : string) (i : nat)
    (names : list string) : result string :=
  match names with
  | [] => Done ""
  | n :: t =>
      if (n =? key)%string then index values i
      else Params_from values key (S i) t
  end.

Definition Params (c : Ctx) (key : string) : result string :=
  match ctx_params c with
  | None => Panics
  | Some names => Params_from (ctx_values c) key 0 names
  end.

(** [Subdomains]: the slice [subs[:len(subs)-o]] has its capacity equal
    to its length, so a bound below 0 or above the length panics. *)
Definition Subdomains (c : Ctx) (offset : list Z) : result (list string) :=
  let o :=
    match offset with
    | o0 :: _ => o0
    | [] => 2%Z
    end in
  let subs := Split "." (Hostname c) in
  let n := (Z.of_nat (List.length subs) - o)%Z in
  if (n <? 0)%Z || (Z.of_nat (List.length subs) <? n)%Z then Panics
  else Done (firstn (Z.to_nat n) subs).

Definition XHR (c : Ctx) : bool :=
  (Get c HeaderXRequestedWith =? "XMLHttpRequest")%string.

End ctx.

(** An offer is acceptable under a header value when one of the
    comma-separated specs, trimmed, starts with "*" or with the offer. *)
Definition acceptable (L : CtxLib) (h offer : string) : Prop :=
  exists spec,
    In spec (Split "," h)
    /\ (HasPrefix (TrimSpace L spec) "*" = true
        \/ HasPrefix (TrimSpace L spec) offer = true).

(** [r] is the first acceptable offer, or empty when there is none. *)
Definition first_acceptable (L : CtxLib) (h : string) (offers : list string)
    (r : string) : Prop :=
  (exists pre post,
     offers = (pre ++ r :: post)%list
     /\ (forall x, In x pre -> ~ acceptable L h x)
     /\ acceptable L h r)
  \/ ((forall x, In x offers -> ~ acceptable L h x) /\ r = "").

(** A library for examples: ASCII trimming and folding, a decoder that
    knows one credential, a MIME table with one entry. *)
Fixpoint example_trim_left (s : string) : string :=
  match s with
  | String c t => if (c =? " ")%char then example_trim_left t else s
  | EmptyString => EmptyString
  end.

Definition example_lower (c : ascii) : ascii :=
  let n := nat_of_ascii c in
  if (65 <=? n)%nat && (n <=? 90)%nat then ascii_of_nat (n + 32) else c.

Fixpoint example_fold (s t : string) : bool :=
  match s, t with
  | EmptyString, EmptyString => true
  | String c s', String d t' => (example_lower c =? example_lower d)%char && example_fold s' t'
  | _, _ => false
  end.

Definition exampleLib : CtxLib :=
  mkCtxLib example_trim_left example_fold
    (fun s => if (s =? "YWxpY2U6b3BlbjpzZXNhbWU=")%string then inl "alice:open:sesame"
              else inr (ErrExternal "illegal base64 data"))
    (fun t => if (t =? "text/html")%string then [".htm"; ".html"] else []).

Definition exampleCtx : Ctx :=
  mkCtx (fun key =>
           if (key =? "Authorization")%string then "bAsIc YWxpY2U6b3BlbjpzZXNhbWU="
           else if (key =? "Accept-Encoding")%string then "gzip;q=0, br"
           else if (key =? "Content-Type")%string then "text/html"
           else "")
    "api.eu.example.com" true (Some ["id"; "name"; "id"]) ["7"; "fiber"; "9"].


(** * Properties *)

(** ** The model on concrete inputs *)

Example addMissingPort_http : addMissingPort "example.com" false = "example.com:80".
Proof. reflexivity. Qed.
Example addMissingPort_https : addMissingPort "example.com" true = "example.com:443".
Proof. reflexivity. Qed.
Example addMissingPort_given : addMissingPort "example.com:8080" true = "example.com:8080".
Proof. reflexivity. Qed.
Example timeoutAgent_bound :
  HostClient timeoutAgent = Some (mkHostClient "example.com:80" "fiber" false false None).
Proof. reflexivity. Qed.
Example loop_by_2_cookies : loop_by_2 1 5 = [1; 3].
Proof. reflexivity. Qed.
Example loop_by_2_files : loop_by_2 0 3 = [0; 2].
Proof. reflexivity. Qed.
Example Itoa_2 : "file" ++ Itoa 2 = "file2".
Proof. reflexivity. Qed.
Example failedAgent_errs : errs failedAgent = [ErrUnsupportedProtocol "ftp"].
Proof. reflexivity. Qed.
Example failedAgent_unbound : HostClient failedAgent = None.
Proof. reflexivity. Qed.

(** ** Parse *)

Lemma set_parsed_HostClient (b : bool) (a : Agent) :
  HostClient (set_parsed b a) = HostClient a.
Proof. reflexivity. Qed.

Lemma Parse_parsed (a : Agent) : parsed a = true -> Parse a = (None, a).
Proof. intros H. unfold Parse. now rewrite H. Qed.

Lemma Parse_uri_error (u : option URI) (a : Agent) (e : error) (a' : Agent) :
  Parse_uri u a = (Some e, a') -> a' = a.
Proof.
  unfold Parse_uri. destruct u as [uri|].
  - destruct (_ && _); intros H; inversion H; reflexivity.
  - intros H; inversion H; reflexivity.
Qed.

Lemma Parse_error_state (a : Agent) (e : error) (a' : Agent) :
  Parse a = (Some e, a') -> parsed a = false /\ a' = set_parsed true a.
Proof.
  unfold Parse. destruct (parsed a) eqn:Hp.
  - discriminate.
  - intros H. split; [reflexivity|]. eapply Parse_uri_error; eassumption.
Qed.

Lemma string_eqb_neq (s t : string) : s <> t -> (s =? t)%string = false.
Proof. intros H. now apply String.eqb_neq. Qed.

(** C4, as the code has it: on an agent not yet parsed, a nil URI makes
    [Parse] return [ErrorInvalidURI], and a scheme that is neither http
    nor https makes it return the unsupported-protocol error naming the
    scheme; in both cases the agent only gets its [parsed] flag set, so no
    host transport is bound. *)
Theorem Parse_rejects_bad_uri (a : Agent) :
  parsed a = false ->
  Parse_uri None (set_parsed true a) = (Some ErrorInvalidURI, set_parsed true a)
  /\ (forall uri,
        Request_URI (effective_req a) = Some uri ->
        URI_Scheme uri <> strHTTP -> URI_Scheme uri <> strHTTPS ->
        Parse a = (Some (ErrUnsupportedProtocol (URI_Scheme uri)), set_parsed true a))
  /\ HostClient (set_parsed true a) = HostClient a.
Proof.
  intros Hp. split; [reflexivity|]. split; [|reflexivity].
  intros uri Hu Hhttp Hhttps.
  unfold Parse. rewrite Hp.
  replace (effective_req (set_parsed true a)) with (effective_req a) by reflexivity.
  rewrite Hu. unfold Parse_uri.
  rewrite (string_eqb_neq _ _ Hhttp), (string_eqb_neq _ _ Hhttps). reflexivity.
Qed.

Lemma Parse_rejects_bad_uri_witness :
  Parse ftpAgent = (Some (ErrUnsupportedProtocol "ftp"), set_parsed true ftpAgent).
Proof.
  apply (proj1 (proj2 (Parse_rejects_bad_uri ftpAgent eq_refl))
           (r_uri (effective_req ftpAgent)) eq_refl).
  - vm_compute. discriminate.
  - vm_compute. discriminate.
Defined.

(** C4 as stated fails: for the scheme ftp the first [Parse] does not
    return [ErrorInvalidURI]. *)
Lemma Parse_ftp_not_ErrorInvalidURI :
  parsed ftpAgent = false
  /\ URI_Scheme (r_uri (effective_req ftpAgent)) = "ftp"
  /\ fst (Parse ftpAgent) = Some (ErrUnsupportedProtocol "ftp")
  /\ fst (Parse ftpAgent) <> Some ErrorInvalidURI.
Proof. repeat split; try reflexivity. vm_compute. discriminate. Qed.

(** C10: a first [Parse] that returned an error has set [parsed] and left
    the host transport as it was; every later [Parse] returns nil and
    changes nothing. *)
Theorem Parse_failure_is_memoized (a : Agent) (e : error) (a' : Agent) :
  Parse a = (Some e, a') ->
  parsed a' = true
  /\ HostClient a' = HostClient a
  /\ forall n, Parse_again n a' = a' /\ Parse (Parse_again n a') = (None, a').
Proof.
  intros H. apply Parse_error_state in H. destruct H as [_ ->].
  split; [reflexivity|]. split; [reflexivity|].
  assert (Hp : parsed (set_parsed true a) = true) by reflexivity.
  induction n as [|n [IH1 IH2]].
  - split; [reflexivity|]. now apply Parse_parsed.
  - assert (Hs : Parse_again (S n) (set_parsed true a) = set_parsed true a).
    { unfold Parse_again in *. simpl. rewrite IH1.
      rewrite (Parse_parsed _ Hp). reflexivity. }
    split; [exact Hs|]. rewrite Hs. now apply Parse_parsed.
Qed.

Lemma Parse_failure_is_memoized_witness :
  HostClient (set_parsed true ftpAgent) = None
  /\ Parse (Parse_again 2 (set_parsed true ftpAgent)) = (None, set_parsed true ftpAgent).
Proof.
  pose proof (Parse_failure_is_memoized ftpAgent (ErrUnsupportedProtocol "ftp")
                (set_parsed true ftpAgent) eq_refl) as [_ [Hc Hn]].
  split.
  - rewrite Hc. reflexivity.
  - exact (proj2 (Hn 2)).
Defined.

(** ** What an execution call does to the world *)

Lemma set_sent_nil (w : World) : set_sent (sent w ++ [])%list w = w.
Proof. destruct w; unfold set_sent; simpl. now rewrite app_nil_r. Qed.

Lemma set_sent_app (w : World) (l1 l2 : list Call) :
  set_sent ((sent w ++ l1) ++ l2)%list (set_sent (sent w ++ l1)%list w)
  = set_sent (sent w ++ (l1 ++ l2))%list w.
Proof. unfold set_sent; simpl. now rewrite app_assoc. Qed.

Lemma HostClient_call_world (E : Env) hc mk resp w :
  exists calls,
    snd (HostClient_call E hc mk resp w) = set_sent (sent w ++ calls)%list w
    /\ (forall c, In c calls -> exists h, c = mk h).
Proof.
  unfold HostClient_call. destruct hc as [c|].
  - destruct (transport E (sent w) (mk c)) as [resp' err]. simpl.
    exists [mk c]. split; [reflexivity|].
    intros c0 [<-|[]]. now exists c.
  - exists []. simpl. split; [now rewrite set_sent_nil|]. intros c [].
Qed.

Lemma Bytes_sends_world (E : Env) a r resp w :
  exists calls,
    snd (Bytes_sends E a r resp w) = set_sent (sent w ++ calls)%list w
    /\ (wants_redirects a r = false ->
        forallb (fun c => negb (is_DoRedirects c)) calls = true).
Proof.
  assert (Hnil : exists calls : list Call,
             w = set_sent (sent w ++ calls)%list w
             /\ (forall c, In c calls -> is_DoRedirects c = false)).
  { exists []. split; [now rewrite set_sent_nil|]. intros c []. }
  assert (H1 : exists calls,
             snd (if (0 <? timeout a)%Z
                  then HostClient_call E (HostClient a)
                         (fun c => CallDoTimeout c r (timeout a)) resp w
                  else (Done None, resp, w))
             = set_sent (sent w ++ calls)%list w
             /\ (forall c, In c calls -> is_DoRedirects c = false)).
  { destruct (0 <? timeout a)%Z; [|exact Hnil].
    destruct (HostClient_call_world E (HostClient a)
                (fun c => CallDoTimeout c r (timeout a)) resp w) as [calls [Hw Hc]].
    exists calls. split; [exact Hw|].
    intros c Hin. destruct (Hc c Hin) as [h ->]. reflexivity. }
  unfold Bytes_sends.
  destruct H1 as [c1 [Hw1 Hc1]].
  destruct (if (0 <? timeout a)%Z then _ else _) as [[o1 resp1] w1].
  simpl in Hw1. subst w1.
  assert (Hall1 : wants_redirects a r = false ->
                  forallb (fun c => negb (is_DoRedirects c)) c1 = true).
  { intros _. apply forallb_forall. intros c Hin. now rewrite (Hc1 c Hin). }
  destruct o1 as [[err1|]|]; try (exists c1; split; [reflexivity|exact Hall1]).
  set (w1 := set_sent (sent w ++ c1)%list w).
  assert (H2 : exists calls,
             snd (if wants_redirects a r
                  then HostClient_call E (HostClient a)
                         (fun c => CallDoRedirects c r (maxRedirectsCount a)) resp1 w1
                  else (Done None, resp1, w1))
             = set_sent (sent w1 ++ calls)%list w1
             /\ (wants_redirects a r = false -> calls = [])).
  { destruct (wants_redirects a r).
    - destruct (HostClient_call_world E (HostClient a)
                  (fun c => CallDoRedirects c r (maxRedirectsCount a)) resp1 w1)
        as [calls [Hw Hc]].
      exists calls. split; [exact Hw|discriminate].
    - exists []. split; [symmetry; exact (set_sent_nil w1)|reflexivity]. }
  destruct H2 as [c2 [Hw2 Hc2]].
  destruct (if wants_redirects a r then _ else _) as [[o2 resp2] w2].
  simpl in Hw2. subst w2. unfold w1. rewrite set_sent_app. clear w1.
  assert (Hall2 : wants_redirects a r = false ->
                  forallb (fun c => negb (is_DoRedirects c)) (c1 ++ c2) = true).
  { intros Hr. rewrite (Hc2 Hr), app_nil_r. now apply Hall1. }
  destruct o2 as [[err2|]|]; try (exists (c1 ++ c2)%list; split; [reflexivity|exact Hall2]).
  set (w2 := set_sent (sent w ++ (c1 ++ c2))%list w).
  destruct (HostClient_call_world E (HostClient a) (fun c => CallDo c r) resp2 w2)
    as [c3 [Hw3 Hc3]].
  destruct (HostClient_call E (HostClient a) (fun c => CallDo c r) resp2 w2)
    as [[o3 resp3] w3].
  simpl in Hw3. subst w3. unfold w2. rewrite set_sent_app. clear w2.
  assert (Hall3 : wants_redirects a r = false ->
                  forallb (fun c => negb (is_DoRedirects c)) ((c1 ++ c2) ++ c3) = true).
  { intros Hr. rewrite forallb_app, (Hall2 Hr). simpl.
    apply forallb_forall. intros c Hin. destruct (Hc3 c Hin) as [h ->]. reflexivity. }
  destruct o3 as [[err3|]|]; exists ((c1 ++ c2) ++ c3)%list; split;
    solve [reflexivity | exact Hall3].
Qed.

Lemma reset_formFiles_frame (l : list (option FormFile)) (w : World) :
  let w' := snd (reset_files l w) in
  agentPool w' = agentPool w /\ sent w' = sent w
  /\ responsePool w' = responsePool w /\ debugOut w' = debugOut w.
Proof.
  revert w. induction l as [|[ff|] l IH]; intros w; simpl.
  - repeat split.
  - specialize (IH (if autoRelease ff then ReleaseFormFile ff w else w)).
    destruct (reset_files l _) as [[p t'] w']. simpl in *.
    destruct IH as (H1 & H2 & H3 & H4). rewrite H1, H2, H3, H4.
    destruct (autoRelease ff); repeat split.
  - repeat split.
Qed.

(** [reset] panics exactly when a nil descriptor is attached. *)
Lemma reset_files_panics (l : list (option FormFile)) (w : World) :
  fst (fst (reset_files l w)) = true <-> In None l.
Proof.
  revert w. induction l as [|[ff|] l IH]; intros w; simpl.
  - split; [discriminate|intros []].
  - specialize (IH (if autoRelease ff then ReleaseFormFile ff w else w)).
    destruct (reset_files l _) as [[p t'] w']. simpl in *.
    rewrite IH. split; [now right|]. intros [H|H]; [discriminate|exact H].
  - split; [now left|reflexivity].
Qed.

Lemma reset_files_completes (l : list (option FormFile)) (w : World) :
  ~ In None l -> fst (fst (reset_files l w)) = false.
Proof.
  intros H. destruct (fst (fst (reset_files l w))) eqn:Hp; [|reflexivity].
  exfalso. apply H. now apply (reset_files_panics l w).
Qed.

Lemma ReleaseAgent_world (a : Agent) (w : World) :
  snd (ReleaseAgent a w)
  = if fst (fst (reset_files (formFiles a) w)) then snd (reset_files (formFiles a) w)
    else set_agentPool
           (pool_Put (snd (fst (ReleaseAgent a w)))
              (agentPool (snd (reset_files (formFiles a) w))))
           (snd (reset_files (formFiles a) w)).
Proof.
  unfold ReleaseAgent, reset.
  destruct (reset_files (formFiles a) w) as [[p slots] w']. now destruct p.
Qed.

Lemma ReleaseAgent_panics (a : Agent) (w : World) :
  fst (fst (ReleaseAgent a w)) = fst (fst (reset_files (formFiles a) w)).
Proof.
  unfold ReleaseAgent, reset.
  destruct (reset_files (formFiles a) w) as [[p slots] w']. now destruct p.
Qed.

Lemma release_sent (a : Agent) (w : World) : sent (snd (release a w)) = sent w.
Proof.
  unfold release. destruct (negb (reuse a)); [|reflexivity].
  rewrite ReleaseAgent_world.
  destruct (reset_formFiles_frame (formFiles a) w) as (_ & H & _).
  now destruct (fst (fst (reset_files (formFiles a) w))).
Qed.

Lemma release_reuse (a : Agent) (w : World) :
  reuse a = true -> release a w = (false, set_errs [] a, w).
Proof. intros H. unfold release. now rewrite H. Qed.

(** [release] panics exactly when the agent is to be recycled and holds
    a nil descriptor. *)
Lemma release_panics (a : Agent) (w : World) :
  fst (fst (release a w)) = true <-> reuse a = false /\ In None (formFiles a).
Proof.
  unfold release. destruct (reuse a); simpl.
  - split; [discriminate|intros [H _]; discriminate].
  - rewrite ReleaseAgent_panics, reset_files_panics. tauto.
Qed.

Lemma release_completes (a : Agent) (w : World) :
  reuse a = true \/ ~ In None (formFiles a) -> fst (fst (release a w)) = false.
Proof.
  intros H. destruct (fst (fst (release a w))) eqn:Hp; [|reflexivity].
  apply release_panics in Hp. destruct Hp as [Hr Hn].
  destruct H as [H|H]; [congruence|contradiction].
Qed.

Lemma Bytes_fail_fast (E : Env) resp a w :
  errs a <> [] ->
  Bytes E resp a w
  = (if fst (fst (release a w)) then Panicked else Returned 0 "" (errs a),
     snd (fst (release a w)), snd (release a w)).
Proof.
  intros H. unfold Bytes. simpl app.
  destruct (errs a) as [|e es]; [congruence|].
  simpl. now destruct (release a w) as [[p a'] w'].
Qed.

Lemma Bytes_no_errs (E : Env) resp a w :
  errs a = [] -> Bytes E resp a w = Bytes_run E resp a w.
Proof. intros H. unfold Bytes. now rewrite H. Qed.

Lemma Bytes_run_sent (E : Env) resp a w :
  exists calls,
    sent (snd (Bytes_run E resp a w)) = (sent w ++ calls)%list
    /\ (wants_redirects a (effective_req a) = false ->
        forallb (fun c => negb (is_DoRedirects c)) calls = true).
Proof.
  unfold Bytes_run.
  set (st := match resp with
             | [] => let '(r0, w0) := AcquireResponse E w in (r0, true, w0)
             | r0 :: _ => (r0, false, w)
             end).
  assert (Hst : sent (snd st) = sent w).
  { unfold st. destruct resp; [|reflexivity].
    unfold AcquireResponse. destruct (pool_Get _ _) as [[v|] p]; reflexivity. }
  destruct st as [[resp0 rel] w0]. simpl in Hst.
  destruct (Bytes_sends_world E a (effective_req a) resp0 w0) as [calls [Hw Hc]].
  destruct (Bytes_sends E a (effective_req a) resp0 w0) as [[o resp1] w1].
  simpl in Hw. subst w1.
  exists calls. split; [|exact Hc].
  match goal with
  | |- context [release a ?W] =>
      pose proof (release_sent a W) as Hr; destruct (release a W) as [[p a'] w'] eqn:Hrel
  end.
  simpl in Hr.
  assert (Hgoal : sent w' = (sent w ++ calls)%list).
  { rewrite Hr. destruct (debugWriter a), rel; simpl; now rewrite Hst. }
  destruct o; [destruct p|]; exact Hgoal.
Qed.

(** The calls one [Bytes] adds to the log of the transport. *)
Lemma Bytes_sent (E : Env) resp a w :
  exists calls,
    sent (snd (Bytes E resp a w)) = (sent w ++ calls)%list
    /\ (errs a <> [] -> calls = [])
    /\ (wants_redirects a (effective_req a) = false ->
        forallb (fun c => negb (is_DoRedirects c)) calls = true).
Proof.
  destruct (errs a) as [|e es] eqn:He.
  - rewrite (Bytes_no_errs E resp a w He).
    destruct (Bytes_run_sent E resp a w) as [calls [Hs Hc]].
    exists calls. split; [exact Hs|]. split; [congruence|exact Hc].
  - exists []. rewrite Bytes_fail_fast by congruence. simpl.
    rewrite release_sent, app_nil_r. repeat split.
Qed.

Lemma Struct_world (E : Env) v resp a w :
  snd (Struct E v resp a w) = snd (Bytes E resp a w)
  /\ snd (fst (Struct E v resp a w)) = snd (fst (Bytes E resp a w)).
Proof.
  unfold Struct. destruct (Bytes E resp a w) as [[o a'] w'].
  destruct o as [code body es|]; [|split; reflexivity].
  destruct (json_Unmarshal E body v); split; reflexivity.
Qed.

(** C5: when the method of the request is neither GET nor HEAD, no
    execution call invokes [DoRedirects], whatever [maxRedirectsCount] is
    and whatever the transport answers. *)
Theorem no_DoRedirects_unless_GET_or_HEAD (E : Env) (v : Value E) resp a w :
  Header_Method (r_Header (effective_req a)) <> MethodGet ->
  Header_Method (r_Header (effective_req a)) <> MethodHead ->
  exists calls,
    sent (snd (Bytes E resp a w)) = (sent w ++ calls)%list
    /\ sent (snd (String_ E resp a w)) = (sent w ++ calls)%list
    /\ sent (snd (Struct E v resp a w)) = (sent w ++ calls)%list
    /\ forallb (fun c => negb (is_DoRedirects c)) calls = true.
Proof.
  intros Hg Hh.
  destruct (Bytes_sent E resp a w) as [calls [Hs [_ Hc]]].
  exists calls. rewrite (proj1 (Struct_world E v resp a w)). unfold String_.
  repeat split; try exact Hs.
  apply Hc. unfold wants_redirects.
  rewrite (string_eqb_neq _ _ Hg), (string_eqb_neq _ _ Hh). simpl.
  apply andb_false_r.
Qed.

Lemma no_DoRedirects_unless_GET_or_HEAD_witness :
  maxRedirectsCount postAgent = 3%Z
  /\ exists calls,
       sent (snd (Bytes exampleEnv [] postAgent WorldZero)) = calls
       /\ forallb (fun c => negb (is_DoRedirects c)) calls = true.
Proof.
  split; [reflexivity|].
  destruct (no_DoRedirects_unless_GET_or_HEAD exampleEnv "target" [] postAgent WorldZero)
    as [calls [Hs [_ [_ Hc]]]].
  - vm_compute. discriminate.
  - vm_compute. discriminate.
  - exists calls. split; [exact Hs|exact Hc].
Defined.

(** With no timeout and no redirects to follow, the send phase is the
    one plain [Do]. *)
Lemma Bytes_sends_plain_once (E : Env) a r resp w hc :
  HostClient a = Some hc ->
  (timeout a <= 0)%Z ->
  wants_redirects a r = false ->
  sent (snd (Bytes_sends E a r resp w)) = (sent w ++ [CallDo hc r])%list.
Proof.
  intros Hhc Ht Hr. unfold Bytes_sends.
  replace (0 <? timeout a)%Z with false by (symmetry; apply Z.ltb_ge; exact Ht).
  rewrite Hr, Hhc. unfold HostClient_call.
  destruct (transport E (sent w) (CallDo hc r)) as [resp' [e|]]; reflexivity.
Qed.

(** A timeout-bounded send that succeeds is never the last send of the
    call. *)
Lemma Bytes_sends_timeout_not_last (E : Env) a r resp w hc :
  HostClient a = Some hc ->
  (0 < timeout a)%Z ->
  snd (transport E (sent w) (CallDoTimeout hc r (timeout a))) = None ->
  exists c rest,
    sent (snd (Bytes_sends E a r resp w))
    = (sent w ++ CallDoTimeout hc r (timeout a) :: c :: rest)%list.
Proof.
  intros Hhc Ht Hok. unfold Bytes_sends.
  replace (0 <? timeout a)%Z with true by (symmetry; apply Z.ltb_lt; exact Ht).
  rewrite Hhc. unfold HostClient_call at 1.
  destruct (transport E (sent w) (CallDoTimeout hc r (timeout a))) as [resp1 e1].
  simpl in Hok. subst e1.
  set (w1 := set_sent (sent w ++ [CallDoTimeout hc r (timeout a)])%list w).
  destruct (wants_redirects a r).
  - unfold HostClient_call at 1.
    destruct (transport E (sent w1) (CallDoRedirects hc r (maxRedirectsCount a)))
      as [resp2 [e2|]].
    + exists (CallDoRedirects hc r (maxRedirectsCount a)), [].
      simpl. now rewrite <- app_assoc.
    + unfold HostClient_call.
      match goal with
      | |- context [transport E ?h (CallDo hc r)] =>
          destruct (transport E h (CallDo hc r)) as [resp3 [e3|]]
      end;
        exists (CallDoRedirects hc r (maxRedirectsCount a)), [CallDo hc r];
        simpl; now rewrite <- !app_assoc.
  - unfold HostClient_call.
    destruct (transport E (sent w1) (CallDo hc r)) as [resp3 [e3|]];
      exists (CallDo hc r), []; simpl; now rewrite <- app_assoc.
Qed.

(** C1, on the code: a send that succeeds in the timeout branch or in the
    redirect branch is followed by the later sends of [Bytes].  With a
    transport whose sends all succeed, [Get(url).Timeout(1s).Bytes()]
    sends twice, adding [MaxRedirectsCount(3)] sends three times, and
    [MaxRedirectsCount(3)] alone sends twice. *)
Theorem Bytes_sends_after_successful_send :
  let hc := mkHostClient "example.com:80" "fiber" false false None in
  let r := req timeoutAgent in
  errs timeoutAgent = []
  /\ sent (snd (Bytes exampleEnv [] timeoutAgent WorldZero))
     = [CallDoTimeout hc r 1000000000; CallDo hc r]
  /\ sent (snd (Bytes exampleEnv [] (MaxRedirectsCount 3 timeoutAgent) WorldZero))
     = [CallDoTimeout hc r 1000000000; CallDoRedirects hc r 3; CallDo hc r]
  /\ sent (snd (Bytes exampleEnv [] (MaxRedirectsCount 3 (Timeout 0 timeoutAgent)) WorldZero))
     = [CallDoRedirects hc r 3; CallDo hc r].
Proof. repeat split. Qed.

(** C2, on the code: [Struct] on an agent that already carries an error
    sends nothing and returns code 0 and an empty body, but its error
    list is the agent's list followed by the error of decoding the empty
    body; [Bytes] and [String] return the list unchanged. *)
Theorem Struct_adds_decode_error_to_build_errors :
  errs failedAgent = [ErrUnsupportedProtocol "ftp"]
  /\ fst (fst (Bytes exampleEnv [] failedAgent WorldZero))
     = Returned 0 "" [ErrUnsupportedProtocol "ftp"]
  /\ fst (fst (String_ exampleEnv [] failedAgent WorldZero))
     = Returned 0 "" [ErrUnsupportedProtocol "ftp"]
  /\ fst (fst (Struct exampleEnv "target" [] failedAgent WorldZero))
     = Returned 0 ""
         [ErrUnsupportedProtocol "ftp"; ErrExternal "unexpected end of JSON input"]
  /\ sent (snd (Struct exampleEnv "target" [] failedAgent WorldZero)) = [].
Proof. repeat split. Qed.

(** Fail-fast of [Bytes] and [String]: nothing is sent and, when the
    deferred release does not panic on a nil descriptor, the agent's
    errors come back unchanged with code 0 and no body. *)
Lemma Bytes_String_fail_fast (E : Env) resp a w :
  errs a <> [] ->
  reuse a = true \/ no_nil_file a ->
  fst (fst (Bytes E resp a w)) = Returned 0 "" (errs a)
  /\ fst (fst (String_ E resp a w)) = Returned 0 "" (errs a)
  /\ sent (snd (Bytes E resp a w)) = sent w.
Proof.
  intros H Hc. unfold String_. rewrite (Bytes_fail_fast E resp a w H).
  rewrite (release_completes a w Hc). simpl.
  repeat split. apply release_sent.
Qed.

(** [Struct] decodes the empty body even then. *)
Lemma Struct_fail_fast (E : Env) (v : Value E) resp a w :
  errs a <> [] ->
  reuse a = true \/ no_nil_file a ->
  fst (fst (Struct E v resp a w))
  = Returned 0 ""
      (errs a ++ match json_Unmarshal E "" v with Some e => [e] | None => [] end)%list
  /\ sent (snd (Struct E v resp a w)) = sent w.
Proof.
  intros H Hc. unfold Struct. rewrite (Bytes_fail_fast E resp a w H).
  rewrite (release_completes a w Hc).
  destruct (json_Unmarshal E "" v); simpl; rewrite ?app_nil_r; split;
    solve [reflexivity | apply release_sent].
Qed.

(** ** Release and reuse *)

Lemma Bytes_run_release (E : Env) resp a w :
  exists w0,
    snd (fst (Bytes_run E resp a w)) = snd (fst (release a w0))
    /\ snd (Bytes_run E resp a w) = snd (release a w0)
    /\ agentPool w0 = agentPool w.
Proof.
  unfold Bytes_run.
  set (st := match resp with
             | [] => let '(r0, w0) := AcquireResponse E w in (r0, true, w0)
             | r0 :: _ => (r0, false, w)
             end).
  assert (Hst : agentPool (snd st) = agentPool w).
  { unfold st. destruct resp; [|reflexivity].
    unfold AcquireResponse. destruct (pool_Get _ _) as [[v|] p]; reflexivity. }
  destruct st as [[resp0 rel] w0]. simpl in Hst.
  destruct (Bytes_sends_world E a (effective_req a) resp0 w0) as [calls [Hw _]].
  destruct (Bytes_sends E a (effective_req a) resp0 w0) as [[o resp1] w1].
  simpl in Hw. subst w1.
  match goal with
  | |- context [release a ?W] => exists W; destruct (release a W) as [[p a'] w']
  end.
  split; [destruct o; [destruct p|]; reflexivity|].
  split; [destruct o; [destruct p|]; reflexivity|].
  destruct (debugWriter a), rel; simpl; exact Hst.
Qed.

Lemma Bytes_release (E : Env) resp a w :
  exists w0,
    snd (fst (Bytes E resp a w)) = snd (fst (release a w0))
    /\ snd (Bytes E resp a w) = snd (release a w0)
    /\ agentPool w0 = agentPool w.
Proof.
  destruct (errs a) as [|e es] eqn:He.
  - rewrite (Bytes_no_errs E resp a w He). apply Bytes_run_release.
  - exists w. rewrite Bytes_fail_fast by congruence. repeat split.
Qed.

(** C9: on an agent with the reuse flag an execution call clears the
    error list and touches no other field of the agent, and nothing is
    put into the agent pool. *)
Theorem reuse_clears_only_errs (E : Env) (v : Value E) resp a w :
  reuse a = true ->
  (snd (fst (Bytes E resp a w)) = set_errs [] a
   /\ agentPool (snd (Bytes E resp a w)) = agentPool w)
  /\ (snd (fst (String_ E resp a w)) = set_errs [] a
      /\ agentPool (snd (String_ E resp a w)) = agentPool w)
  /\ (snd (fst (Struct E v resp a w)) = set_errs [] a
      /\ agentPool (snd (Struct E v resp a w)) = agentPool w).
Proof.
  intros Hr.
  assert (HB : snd (fst (Bytes E resp a w)) = set_errs [] a
               /\ agentPool (snd (Bytes E resp a w)) = agentPool w).
  { destruct (Bytes_release E resp a w) as [w0 [Ha [Hw Hp]]].
    rewrite Ha, Hw, (release_reuse a w0 Hr). simpl. split; [reflexivity|exact Hp]. }
  destruct (Struct_world E v resp a w) as [Hw Ha].
  unfold String_. rewrite Hw, Ha. repeat split; apply HB.
Qed.

Lemma reuse_clears_only_errs_witness :
  let a := Reuse (Set_ "X-Token" "t" timeoutAgent) in
  snd (fst (Bytes exampleEnv [] a WorldZero)) = a
  /\ agentPool (snd (Bytes exampleEnv [] a WorldZero)) = [].
Proof.
  intros a.
  destruct (reuse_clears_only_errs exampleEnv "target" [] a WorldZero eq_refl)
    as [[Ha Hp] _].
  split; [rewrite Ha; reflexivity|exact Hp].
Defined.

Lemma pool_Get_In {A : Type} (k : nat) (p : list A) (x : A) (p' : list A) :
  pool_Get k p = (Some x, p') -> In x p.
Proof.
  unfold pool_Get. destruct (nth_error p k) as [y|] eqn:Hn; [|discriminate].
  intros H. inversion H; subst. eapply nth_error_In; eassumption.
Qed.

Lemma AcquireAgent_from_pool (E : Env) (w : World) :
  fst (AcquireAgent E w) = AgentZero \/ In (fst (AcquireAgent E w)) (agentPool w).
Proof.
  unfold AcquireAgent.
  destruct (pool_Get _ _) as [[v|] p] eqn:Hg; simpl; [right|now left].
  eapply pool_Get_In; eassumption.
Qed.

Lemma AcquireFormFile_from_pool (E : Env) (w : World) :
  fst (AcquireFormFile E w) = FormFileZero
  \/ In (fst (AcquireFormFile E w)) (formFilePool w).
Proof.
  unfold AcquireFormFile.
  destruct (pool_Get _ _) as [[v|] p] eqn:Hg; simpl; [right|now left].
  eapply pool_Get_In; eassumption.
Qed.

Lemma reset_formFilePool (l : list (option FormFile)) (w : World) :
  exists n,
    formFilePool (snd (reset_files l w))
    = (formFilePool w ++ repeat FormFileZero n)%list.
Proof.
  revert w. induction l as [|[ff|] l IH]; intros w; simpl.
  - exists 0. simpl. now rewrite app_nil_r.
  - specialize (IH (if autoRelease ff then ReleaseFormFile ff w else w)).
    destruct (reset_files l _) as [[p t'] w']. simpl in *.
    destruct IH as [n Hn]. destruct (autoRelease ff).
    + exists (S n). rewrite Hn. unfold ReleaseFormFile, pool_Put. simpl.
      now rewrite <- app_assoc.
    + exists n. exact Hn.
  - exists 0. simpl. now rewrite app_nil_r.
Qed.

Lemma ReleaseAgent_completed (a : Agent) (w : World) :
  fst (fst (ReleaseAgent a w)) = false ->
  snd (fst (ReleaseAgent a w))
  = mkAgent None RequestZero None None 0 [] [] None 0 "" "" false false false
  /\ agentPool (snd (ReleaseAgent a w)) = (agentPool w ++ [AgentZero])%list.
Proof.
  unfold ReleaseAgent, reset.
  pose proof (proj1 (reset_formFiles_frame (formFiles a) w)) as Hf.
  destruct (reset_files (formFiles a) w) as [[p slots] w1]. simpl in Hf.
  destruct p; simpl; [discriminate|]. intros _.
  split; [reflexivity|]. unfold pool_Put. now rewrite Hf.
Qed.

Lemma ReleaseAgent_panicked (a : Agent) (w : World) :
  fst (fst (ReleaseAgent a w)) = true ->
  agentPool (snd (ReleaseAgent a w)) = agentPool w.
Proof.
  unfold ReleaseAgent, reset.
  pose proof (proj1 (reset_formFiles_frame (formFiles a) w)) as Hf.
  destruct (reset_files (formFiles a) w) as [[p slots] w1]. simpl in Hf.
  destruct p; simpl; [intros _; exact Hf|discriminate].
Qed.

Lemma ReleaseAgent_formFilePool (a : Agent) (w : World) :
  exists n,
    formFilePool (snd (ReleaseAgent a w)) = (formFilePool w ++ repeat FormFileZero n)%list.
Proof.
  unfold ReleaseAgent, reset.
  destruct (reset_formFilePool (formFiles a) w) as [n Hn].
  destruct (reset_files (formFiles a) w) as [[p slots] w1]. simpl in Hn.
  exists n. now destruct p.
Qed.

(** C8: [ReleaseAgent] completes unless a nil descriptor is attached, on
    which it panics without putting the agent into the pool.  When it
    completes it leaves every field of the agent at its zero value and
    puts that agent into the pool; [ReleaseFormFile] does the same for a
    descriptor, also for the descriptors an agent owns; so in every case
    what a later acquire hands out is a zero object or an object that was
    in the pool before this release. *)
Theorem release_scrubs_every_field (E : Env) (a : Agent) (ff : FormFile) (w : World) :
  let w' := snd (ReleaseAgent a w) in
  (fst (fst (ReleaseAgent a w)) = false <-> no_nil_file a)
  /\ (fst (fst (ReleaseAgent a w)) = false ->
      snd (fst (ReleaseAgent a w))
      = mkAgent None RequestZero None None 0 [] [] None 0 "" "" false false false
      /\ agentPool w' = (agentPool w ++ [AgentZero])%list)
  /\ (fst (fst (ReleaseAgent a w)) = true -> agentPool w' = agentPool w)
  /\ (exists n, formFilePool w' = (formFilePool w ++ repeat FormFileZero n)%list)
  /\ formFilePool (ReleaseFormFile ff w)
     = (formFilePool w ++ [mkFormFile "" "" "" false])%list
  /\ (fst (AcquireAgent E w') = AgentZero \/ In (fst (AcquireAgent E w')) (agentPool w))
  /\ (fst (AcquireFormFile E (ReleaseFormFile ff w)) = FormFileZero
      \/ In (fst (AcquireFormFile E (ReleaseFormFile ff w))) (formFilePool w)).
Proof.
  intros w'.
  split.
  { rewrite ReleaseAgent_panics. unfold no_nil_file.
    rewrite <- (reset_files_panics (formFiles a) w).
    destruct (fst (fst (reset_files (formFiles a) w))); split; congruence. }
  split; [apply ReleaseAgent_completed|].
  split; [apply ReleaseAgent_panicked|].
  split; [apply ReleaseAgent_formFilePool|].
  split; [reflexivity|]. split.
  - destruct (AcquireAgent_from_pool E w') as [H|H]; [now left|].
    destruct (fst (fst (ReleaseAgent a w))) eqn:Hp.
    + right. unfold w' in H. now rewrite (ReleaseAgent_panicked a w Hp) in H.
    + unfold w' in H. rewrite (proj2 (ReleaseAgent_completed a w Hp)) in H.
      apply in_app_or in H. destruct H as [H|[H|[]]].
      * now right.
      * left. now symmetry.
  - destruct (AcquireFormFile_from_pool E (ReleaseFormFile ff w)) as [H|H]; [now left|].
    unfold ReleaseFormFile, pool_Put in H. simpl in H.
    apply in_app_or in H. destruct H as [H|[H|[]]].
    + now right.
    + left. now symmetry.
Qed.

Lemma release_scrubs_every_field_witness :
  let a := FileData [Some example_file] timeoutAgent in
  snd (fst (ReleaseAgent a WorldZero)) = AgentZero
  /\ agentPool (snd (ReleaseAgent a WorldZero)) = [AgentZero].
Proof.
  intros a.
  destruct (release_scrubs_every_field exampleEnv a example_file WorldZero)
    as (Hc & Hz & _).
  apply Hz. apply Hc. unfold no_nil_file. simpl. intros [H|[]]. discriminate.
Defined.

(** A nil descriptor stops the release before the agent reaches the
    pool; the descriptors in front of it have been given back. *)
Example ReleaseAgent_nil_descriptor :
  let a := FileData [None] (fst (SendFile exampleEnv "a.txt" [] timeoutAgent WorldZero)) in
  fst (fst (ReleaseAgent a WorldZero)) = true
  /\ agentPool (snd (ReleaseAgent a WorldZero)) = []
  /\ formFilePool (snd (ReleaseAgent a WorldZero)) = [FormFileZero]
  /\ formFiles (snd (fst (ReleaseAgent a WorldZero))) = [None; None].
Proof. repeat split. Qed.

(** ** File loading *)

Lemma SendFile_read (E : Env) filename fieldname a w content :
  ReadFile E (filepath_Clean E filename) = inl content ->
  exists ff,
    SendFile E filename fieldname a w
    = (set_formFiles (formFiles a ++ [Some ff])%list a, snd (AcquireFormFile E w))
    /\ Fieldname ff
       = (if match fieldname with f :: _ => negb (f =? "")%string | [] => false end
          then hd "" fieldname
          else "file" ++ Itoa (Z.of_nat (List.length (formFiles a)) + 1))
    /\ ff_Name ff = filepath_Base E filename
    /\ Content ff = Content (fst (AcquireFormFile E w)) ++ content
    /\ autoRelease ff = true.
Proof.
  intros Hr. unfold SendFile. rewrite Hr.
  destruct (AcquireFormFile E w) as [ff0 w0]. simpl.
  eexists. split; [reflexivity|]. simpl. repeat split.
Qed.

(** C7: on an agent without attached files, with both files readable,
    [SendFiles("a.txt", "f1", "b.txt")] is [SendFile("a.txt", "f1")]
    followed by [SendFile("b.txt", "")], and attaches exactly two
    descriptors: the first named f1, the second named file2 by the
    positional default. *)
Theorem SendFiles_odd_list_pads_field_name (E : Env) (a : Agent) (w : World)
    (c1 c2 : string) :
  formFiles a = [] ->
  ReadFile E (filepath_Clean E "a.txt") = inl c1 ->
  ReadFile E (filepath_Clean E "b.txt") = inl c2 ->
  SendFiles E ["a.txt"; "f1"; "b.txt"] a w
  = Done (let s := SendFile E "a.txt" ["f1"] a w in
          SendFile E "b.txt" [""] (fst s) (snd s))
  /\ exists ff1 ff2 a' w',
       SendFiles E ["a.txt"; "f1"; "b.txt"] a w = Done (a', w')
       /\ formFiles a' = [Some ff1; Some ff2]
       /\ Fieldname ff1 = "f1" /\ ff_Name ff1 = filepath_Base E "a.txt"
       /\ Fieldname ff2 = "file2" /\ ff_Name ff2 = filepath_Base E "b.txt"
       /\ autoRelease ff1 = true /\ autoRelease ff2 = true
       /\ errs a' = errs a.
Proof.
  intros Hf H1 H2.
  assert (Hrun : SendFiles E ["a.txt"; "f1"; "b.txt"] a w
                 = Done (let s := SendFile E "a.txt" ["f1"] a w in
                         SendFile E "b.txt" [""] (fst s) (snd s))) by reflexivity.
  split; [exact Hrun|]. rewrite Hrun. cbv zeta.
  destruct (SendFile_read E "a.txt" ["f1"] a w c1 H1) as [ff1 (E1 & F1 & N1 & _ & R1)].
  rewrite E1. cbn [fst snd].
  set (a1 := set_formFiles (formFiles a ++ [Some ff1])%list a).
  set (w1 := snd (AcquireFormFile E w)).
  destruct (SendFile_read E "b.txt" [""] a1 w1 c2 H2) as [ff2 (E2 & F2 & N2 & _ & R2)].
  rewrite E2.
  exists ff1, ff2, (set_formFiles (formFiles a1 ++ [Some ff2])%list a1),
    (snd (AcquireFormFile E w1)).
  split; [reflexivity|].
  assert (Hl : formFiles a1 = [Some ff1]) by (unfold a1; simpl; now rewrite Hf).
  split; [change ((formFiles a1 ++ [Some ff2])%list = [Some ff1; Some ff2]); now rewrite Hl|].
  split; [exact F1|]. split; [exact N1|].
  split; [rewrite F2, Hl; reflexivity|].
  repeat split; assumption.
Qed.

Lemma SendFiles_odd_list_pads_field_name_witness :
  exists a' w',
    SendFiles exampleEnv ["a.txt"; "f1"; "b.txt"] AgentZero WorldZero = Done (a', w')
    /\ map (option_map Fieldname) (formFiles a') = [Some "f1"; Some "file2"].
Proof.
  destruct (SendFiles_odd_list_pads_field_name exampleEnv AgentZero WorldZero
              "alpha" "beta" eq_refl eq_refl eq_refl)
    as [_ (ff1 & ff2 & a' & w' & Hs & Hl & F1 & _ & F2 & _)].
  exists a', w'. split; [exact Hs|]. rewrite Hl. simpl. now rewrite F1, F2.
Defined.

(** ** Totality of the setters *)

Lemma errs_extended_refl (a a' : Agent) : errs a' = errs a -> errs_extended a a'.
Proof. intros H. exists []. now rewrite H, app_nil_r. Qed.

Lemma errs_extended_trans (a b c : Agent) :
  errs_extended a b -> errs_extended b c -> errs_extended a c.
Proof.
  intros [n1 H1] [n2 H2]. exists (n1 ++ n2)%list. now rewrite H2, H1, app_assoc.
Qed.

(** [loop_by_2] visits exactly the indices of the Go loop. *)
Lemma loop_by_2_spec (start stop i : nat) :
  In i (loop_by_2 start stop) <-> start <= i < stop /\ Nat.even (i - start) = true.
Proof.
  unfold loop_by_2. rewrite in_map_iff.
  pose proof (Nat.div2_odd (stop - start + 1)) as Hd.
  assert (Hb : Nat.b2n (Nat.odd (stop - start + 1)) <= 1)
    by (destruct (Nat.odd _); simpl; lia).
  split.
  - intros [j [<- Hj]]. apply in_seq in Hj. split; [lia|].
    replace (start + 2 * j - start) with (2 * j) by lia.
    now rewrite Nat.even_mul.
  - intros [Hr He]. apply Nat.even_spec in He. destruct He as [j Hj].
    exists j. split; [lia|]. apply in_seq. lia.
Qed.

Lemma loop_by_2_In (start stop i : nat) :
  In i (loop_by_2 start stop) -> start <= i < stop.
Proof. intros H. now apply loop_by_2_spec in H. Qed.

Lemma index_in_range {A : Type} (l : list A) (i : nat) :
  i < List.length l -> exists x, index l i = Done x.
Proof.
  intros H. unfold index. destruct (nth_error l i) eqn:Hn.
  - eexists; reflexivity.
  - apply nth_error_None in Hn. lia.
Qed.

(** [Cookies] never indexes out of range. *)
Lemma Cookies_total (kv : list string) (a : Agent) :
  exists a', Cookies kv a = Done a' /\ errs a' = errs a /\ formFiles a' = formFiles a.
Proof.
  unfold Cookies.
  assert (Hin : forall i, In i (loop_by_2 1 (List.length kv)) -> 1 <= i < List.length kv)
    by (intros i; apply loop_by_2_In).
  revert a Hin. induction (loop_by_2 1 (List.length kv)) as [|i l IH]; intros a Hin.
  - exists a. repeat split.
  - simpl.
    destruct (Hin i (or_introl eq_refl)) as [Hlo Hhi].
    destruct (index_in_range kv (i - 1)) as [k Hk]; [lia|].
    destruct (index_in_range kv i Hhi) as [v Hv].
    rewrite Hk, Hv. simpl.
    destruct (IH (onHeader (Header_SetCookie k v) a)) as [a' [Ha' [He Hf]]].
    + intros j Hj. apply Hin. now right.
    + exists a'. split; [exact Ha'|]. split; [exact He|exact Hf].
Qed.

Lemma list_pairs_ind (P : list string -> Prop) :
  P [] -> (forall x, P [x]) -> (forall x y l, P l -> P (x :: y :: l)) ->
  forall l, P l.
Proof.
  intros H0 H1 H2.
  assert (H : forall l, P l /\ forall x, P (x :: l)).
  { induction l as [|y l [IH1 IH2]]; split; auto. }
  intros l. apply H.
Qed.

Lemma fold_left_map_list {A B C : Type} (f : A -> C -> A) (g : B -> C)
    (l : list B) (x : A) :
  fold_left f (map g l) x = fold_left (fun s j => f s (g j)) l x.
Proof. revert x. induction l as [|b l IH]; intros x; simpl; [reflexivity|apply IH]. Qed.

Lemma fold_left_ext_list {A B : Type} (f g : A -> B -> A) (l : list B) (x : A) :
  (forall s b, f s b = g s b) -> fold_left f l x = fold_left g l x.
Proof.
  intros H. revert x. induction l as [|b l IH]; intros x; simpl; [reflexivity|].
  rewrite H. apply IH.
Qed.

Lemma index_app_at {A : Type} (pre l : list A) (n : nat) :
  List.length pre = n -> index (pre ++ l) n = index l 0
  /\ index (pre ++ l) (n + 1) = index l 1.
Proof.
  intros <-. unfold index. split.
  - rewrite nth_error_app2 by lia. now rewrite Nat.sub_diag.
  - rewrite nth_error_app2 by lia.
    now replace (List.length pre + 1 - List.length pre) with 1 by lia.
Qed.

(** A loop that reads the entries [2j] and [2j+1] of a list for
    [j = k, k+1, ...] handles the pairs of the list in order. *)
Lemma pair_loop {S : Type} (f : S -> string -> string -> S) (m : list string) :
  forall (pre : list string) (k : nat) (st : S),
    List.length pre = 2 * k ->
    fold_left
      (fun (r : result S) (j : nat) =>
         s <- r ;; x <- index (pre ++ m) (2 * j) ;; y <- index (pre ++ m) (2 * j + 1) ;;
         Done (f s x y))
      (seq k (Nat.div2 (List.length m))) (Done st)
    = Done (fold_left (fun s p => f s (fst p) (snd p)) (pairs_of m) st).
Proof.
  induction m as [|x|x y m IH] using list_pairs_ind; intros pre k st Hpre;
    try reflexivity.
  cbn [List.length Nat.div2 seq fold_left pairs_of fst snd].
  destruct (index_app_at pre (x :: y :: m) (2 * k) Hpre) as [H0 H1].
  rewrite H0, H1. cbn [index nth_error bind].
  replace (pre ++ x :: y :: m)%list with ((pre ++ [x; y]) ++ m)%list
    by (now rewrite <- app_assoc).
  apply IH. rewrite length_app. simpl. lia.
Qed.

Lemma loop_by_2_from_1 (n : nat) :
  loop_by_2 1 n = map (fun j => 2 * j + 1) (seq 0 (Nat.div2 n)).
Proof.
  unfold loop_by_2.
  replace (Nat.div2 (n - 1 + 1)) with (Nat.div2 n)
    by (destruct n; [reflexivity|now replace (S n - 1 + 1) with (S n) by lia]).
  apply map_ext. intros j. lia.
Qed.

Lemma div2_succ_even (n : nat) : Nat.odd n = false -> Nat.div2 (n + 1) = Nat.div2 n.
Proof.
  intros H. rewrite Nat.add_1_r.
  pose proof (Nat.div2_odd n) as Hn. pose proof (Nat.div2_odd (S n)) as Hm.
  rewrite Nat.odd_succ, <- Nat.negb_odd, H in Hm. rewrite H in Hn.
  cbn [negb Nat.b2n] in Hn, Hm. lia.
Qed.

Lemma pairs_padded_of (l : list string) :
  pairs_padded l = pairs_of (if Nat.odd (List.length l) then l ++ [""] else l)%list.
Proof.
  induction l as [|x|x y l IH] using list_pairs_ind; try reflexivity.
  cbn [pairs_padded]. rewrite IH.
  replace (Nat.odd (List.length (x :: y :: l))) with (Nat.odd (List.length l))
    by (simpl List.length; now rewrite Nat.odd_succ_succ).
  destruct (Nat.odd (List.length l)); reflexivity.
Qed.

Lemma SendFiles_pairs (E : Env) (l : list string) (a : Agent) (w : World) :
  SendFiles E l a w
  = Done (fold_left (fun s p => SendFile E (fst p) [snd p] (fst s) (snd s))
            (pairs_padded l) (a, w)).
Proof.
  unfold SendFiles. rewrite pairs_padded_of.
  set (m := if Nat.odd (List.length l) then (l ++ [""])%list else l).
  assert (Hd : Nat.div2 (List.length l - 0 + 1) = Nat.div2 (List.length m)).
  { unfold m. rewrite Nat.sub_0_r. destruct (Nat.odd (List.length l)) eqn:Ho.
    - now rewrite length_app.
    - now apply div2_succ_even. }
  unfold loop_by_2. rewrite Hd, fold_left_map_list.
  rewrite <- (pair_loop (fun s f g => SendFile E f [g] (fst s) (snd s)) m [] 0 (a, w) eq_refl).
  apply fold_left_ext_list. intros s j. reflexivity.
Qed.

(** One [SendFile] records the failure of its read, if any, and attaches
    no nil descriptor. *)
Lemma SendFile_effect (E : Env) filename fieldname a w :
  errs (fst (SendFile E filename fieldname a w))
  = (errs a ++ read_failure E filename)%list
  /\ (no_nil_file a -> no_nil_file (fst (SendFile E filename fieldname a w))).
Proof.
  unfold SendFile, read_failure.
  destruct (ReadFile E (filepath_Clean E filename)) as [c|e].
  - destruct (AcquireFormFile E w) as [ff w0]. simpl. split; [now rewrite app_nil_r|].
    unfold no_nil_file. simpl. intros Hn Hin. apply in_app_or in Hin.
    destruct Hin as [Hin|[Hin|[]]]; [now apply Hn|discriminate].
  - simpl. split; [reflexivity|auto].
Qed.

(** [SendFiles] never indexes out of range, for lists of odd and of even
    length, and records the failed reads in the order of the file names. *)
Lemma SendFiles_total (E : Env) (l : list string) (a : Agent) (w : World) :
  exists a' w',
    SendFiles E l a w = Done (a', w')
    /\ errs a' = (errs a ++ flat_map (fun p => read_failure E (fst p)) (pairs_padded l))%list
    /\ (no_nil_file a -> no_nil_file a').
Proof.
  rewrite SendFiles_pairs. generalize (pairs_padded l). intros ps.
  assert (H : forall a0 w0,
             let s := fold_left (fun s p => SendFile E (fst p) [snd p] (fst s) (snd s))
                        ps (a0, w0) in
             errs (fst s)
             = (errs a0 ++ flat_map (fun p => read_failure E (fst p)) ps)%list
             /\ (no_nil_file a0 -> no_nil_file (fst s))).
  { induction ps as [|p ps IH]; intros a0 w0.
    - simpl. split; [now rewrite app_nil_r|auto].
    - cbn [fold_left fst snd flat_map].
      destruct (SendFile_effect E (fst p) [snd p] a0 w0) as [He Hn].
      destruct (SendFile E (fst p) [snd p] a0 w0) as [a1 w1]. cbn [fst] in He, Hn.
      destruct (IH a1 w1) as [He' Hn']. cbv zeta in *. split.
      + now rewrite He', He, app_assoc.
      + auto. }
  specialize (H a w). cbv zeta in H.
  destruct (fold_left _ ps (a, w)) as [a' w']. exists a', w'.
  split; [reflexivity|exact H].
Qed.

(** ** Multipart assembly *)

Lemma string_app_assoc (s t u : string) : (s ++ t) ++ u = s ++ (t ++ u).
Proof. induction s as [|c s IH]; simpl; [reflexivity|now rewrite IH]. Qed.

Lemma SetBoundary_ok (b : string) (mw : multipart_Writer) :
  fst (SetBoundary b mw) = None ->
  SetBoundary b mw = (None, mkWriter b (mw_lastpart mw)).
Proof.
  unfold SetBoundary.
  destruct (mw_lastpart mw); [discriminate|].
  destruct (_ || _); [discriminate|].
  destruct (negb _); [discriminate|reflexivity].
Qed.

Lemma SetBoundary_state (b : string) (mw : multipart_Writer) (e : error) :
  fst (SetBoundary b mw) = Some e -> snd (SetBoundary b mw) = mw.
Proof.
  unfold SetBoundary.
  destruct (mw_lastpart mw); [reflexivity|].
  destruct (_ || _); [reflexivity|].
  destruct (negb _); [reflexivity|discriminate].
Qed.

Lemma MultipartForm_field_frame (E : Env) mw a kv :
  errs (snd (MultipartForm_field E (mw, a) kv)) = errs a
  /\ formFiles (snd (MultipartForm_field E (mw, a) kv)) = formFiles a.
Proof. split; reflexivity. Qed.

Lemma MultipartForm_file_frame (E : Env) mw a ff :
  errs (snd (MultipartForm_file E (mw, a) ff)) = errs a
  /\ formFiles (snd (MultipartForm_file E (mw, a) ff)) = formFiles a.
Proof. split; reflexivity. Qed.

Lemma MultipartForm_fields_errs (E : Env) (l : list (string * string)) mw a :
  errs (snd (fold_left (MultipartForm_field E) l (mw, a))) = errs a
  /\ formFiles (snd (fold_left (MultipartForm_field E) l (mw, a))) = formFiles a.
Proof.
  revert mw a. induction l as [|kv l IH]; intros mw a; [split; reflexivity|].
  cbn [fold_left].
  destruct (MultipartForm_field_frame E mw a kv) as [H1 H2].
  destruct (MultipartForm_field E (mw, a) kv) as [mw' a'].
  simpl in H1, H2. rewrite <- H1, <- H2. apply IH.
Qed.

Lemma MultipartForm_files_errs (E : Env) (l : list FormFile) mw a :
  errs (snd (fold_left (MultipartForm_file E) l (mw, a))) = errs a
  /\ formFiles (snd (fold_left (MultipartForm_file E) l (mw, a))) = formFiles a.
Proof.
  revert mw a. induction l as [|ff l IH]; intros mw a; [split; reflexivity|].
  cbn [fold_left].
  destruct (MultipartForm_file_frame E mw a ff) as [H1 H2].
  destruct (MultipartForm_file E (mw, a) ff) as [mw' a'].
  simpl in H1, H2. rewrite <- H1, <- H2. apply IH.
Qed.

(** The loop over the descriptors stops at the first nil one and is the
    plain loop when there is none. *)
Lemma MultipartForm_files_Panics (E : Env) (ffs : list (option FormFile)) :
  fold_left
    (fun (r : result (multipart_Writer * Agent)) (off : option FormFile) =>
       st <- r ;;
       match off with
       | None => Panics
       | Some ff => Done (MultipartForm_file E st ff)
       end)
    ffs Panics = Panics.
Proof. induction ffs as [|off ffs IH]; [reflexivity|exact IH]. Qed.

Lemma MultipartForm_files_nil (E : Env) (ffs : list (option FormFile)) st :
  In None ffs -> MultipartForm_files E ffs st = Panics.
Proof.
  unfold MultipartForm_files. revert st.
  induction ffs as [|[ff|] ffs IH]; intros st Hin.
  - destruct Hin.
  - destruct Hin as [Hin|Hin]; [discriminate|]. cbn [fold_left bind]. now apply IH.
  - cbn [fold_left bind]. apply MultipartForm_files_Panics.
Qed.

Lemma MultipartForm_files_present (E : Env) (l : list FormFile) st :
  MultipartForm_files E (map Some l) st = Done (fold_left (MultipartForm_file E) l st).
Proof.
  unfold MultipartForm_files. revert st.
  induction l as [|ff l IH]; intros st; [reflexivity|].
  cbn [map fold_left bind]. apply IH.
Qed.

Lemma no_nil_present {A : Type} (l : list (option A)) :
  ~ In None l -> exists l', l = map Some l'.
Proof.
  induction l as [|[x|] l IH]; intros H.
  - now exists [].
  - destruct IH as [l' ->]; [intros Hin; apply H; now right|]. now exists (x :: l').
  - exfalso. apply H. now left.
Qed.

Lemma present_no_nil {A : Type} (l : list A) : ~ In None (map Some l).
Proof. intros H. apply in_map_iff in H. destruct H as [x [H _]]. discriminate. Qed.

(** The failure [MultipartForm] can detect is a refused boundary; it then
    returns before it looks at the descriptors.  Otherwise it runs to its
    end exactly when no descriptor is nil, and records nothing. *)
Lemma MultipartForm_errs (E : Env) (args : option Args) (a : Agent) :
  no_nil_file a ->
  exists a',
    MultipartForm E args a = Done a'
    /\ errs a' = (errs a ++ detected_failures (CallMultipartForm (E := E) args) a)%list
    /\ formFiles a' = formFiles a.
Proof.
  intros Hn. destruct (no_nil_present (formFiles a) Hn) as [l Hl].
  unfold MultipartForm. cbn [detected_failures].
  destruct (boundary a =? "")%string; cbn [negb].
  - set (mw := NewWriter E).
    set (a0 := onHeader (Header_SetMultipartFormBoundary (mw_boundary mw)) a).
    set (st := match args with
               | Some l => fold_left (MultipartForm_field E) l (mw, a0)
               | None => (mw, a0)
               end).
    assert (Hst : errs (snd st) = errs a /\ formFiles (snd st) = formFiles a).
    { unfold st. destruct args as [fs|]; [|split; reflexivity].
      destruct (MultipartForm_fields_errs E fs mw a0) as [-> ->]. split; reflexivity. }
    replace (formFiles a0) with (map Some l) by (symmetry; exact Hl).
    rewrite MultipartForm_files_present. cbn [bind].
    destruct st as [mw1 a1]. simpl in Hst.
    destruct (MultipartForm_files_errs E l mw1 a1) as [He Hf].
    destruct (fold_left (MultipartForm_file E) l (mw1, a1)) as [mw2 a2].
    simpl in He, Hf. eexists. split; [reflexivity|].
    simpl. rewrite app_nil_r. split; [now rewrite He|now rewrite Hf].
  - destruct (SetBoundary (boundary a) (NewWriter E)) as [[e|] mw]; cbn [fst].
    + eexists. split; [reflexivity|]. split; reflexivity.
    + set (a0 := onHeader (Header_SetMultipartFormBoundary (mw_boundary mw)) a).
      set (st := match args with
                 | Some l => fold_left (MultipartForm_field E) l (mw, a0)
                 | None => (mw, a0)
                 end).
      assert (Hst : errs (snd st) = errs a /\ formFiles (snd st) = formFiles a).
      { unfold st. destruct args as [fs|]; [|split; reflexivity].
        destruct (MultipartForm_fields_errs E fs mw a0) as [-> ->]. split; reflexivity. }
      replace (formFiles a0) with (map Some l) by (symmetry; exact Hl).
      rewrite MultipartForm_files_present. cbn [bind].
      destruct st as [mw1 a1]. simpl in Hst.
      destruct (MultipartForm_files_errs E l mw1 a1) as [He Hf].
      destruct (fold_left (MultipartForm_file E) l (mw1, a1)) as [mw2 a2].
      simpl in He, Hf. eexists. split; [reflexivity|].
      simpl. rewrite app_nil_r. split; [now rewrite He|now rewrite Hf].
Qed.

(** With a boundary that is unset or accepted, a nil descriptor makes
    [MultipartForm] panic. *)
Lemma MultipartForm_panics (E : Env) (args : option Args) (a : Agent) :
  boundary a = "" \/ fst (SetBoundary (boundary a) (NewWriter E)) = None ->
  In None (formFiles a) ->
  MultipartForm E args a = Panics.
Proof.
  intros Hb Hn. unfold MultipartForm.
  assert (Hw : exists mw,
             (if negb (boundary a =? "")%string
              then SetBoundary (boundary a) (NewWriter E)
              else (None, NewWriter E)) = (None, mw)).
  { destruct (boundary a =? "")%string eqn:He; simpl; [now eexists|].
    destruct Hb as [Hb|Hb].
    - rewrite Hb in He. discriminate.
    - destruct (SetBoundary (boundary a) (NewWriter E)) as [e mw]. simpl in Hb.
      subst e. now eexists. }
  destruct Hw as [mw ->].
  rewrite MultipartForm_files_nil; [reflexivity|exact Hn].
Qed.

(** The header of a file part is written disposition first. *)
Lemma file_header_order (d t : string) :
  MIMEHeader_Set "Content-Type" t (MIMEHeader_Set "Content-Disposition" d [])
  = [("Content-Disposition", d); ("Content-Type", t)].
Proof. reflexivity. Qed.

Lemma MultipartForm_writer (E : Env) (a : Agent) :
  boundary a = "" \/ fst (SetBoundary (boundary a) (NewWriter E)) = None ->
  (if negb (boundary a =? "")%string
   then SetBoundary (boundary a) (NewWriter E)
   else (None, NewWriter E))
  = (None, mkWriter (multipart_boundary E a) false).
Proof.
  intros H. unfold multipart_boundary.
  destruct (boundary a =? "")%string eqn:Hb; simpl; [reflexivity|].
  destruct H as [H|H].
  - rewrite H in Hb. discriminate.
  - now rewrite (SetBoundary_ok _ _ H).
Qed.

(** C6: with two key/value pairs in the argument set and one attached
    descriptor, and a boundary that is unset or accepted by the writer,
    [MultipartForm] appends to the request body exactly three parts, the
    two fields in insertion order and then the file under the
    descriptor's field name and file name, each behind a delimiter line
    and the last followed by the closing delimiter; the boundary of the
    delimiters is the one declared in Content-Type, and it is the
    agent's boundary when one was set; no error is recorded. *)
Theorem MultipartForm_two_fields_one_file (E : Env) (a : Agent)
    (k1 v1 k2 v2 : string) (ff : FormFile) :
  formFiles a = [Some ff] ->
  boundary a = "" \/ fst (SetBoundary (boundary a) (NewWriter E)) = None ->
  let b := multipart_boundary E a in
  exists a',
    MultipartForm E (Some [(k1, v1); (k2, v2)]) a = Done a'
    /\ r_body (req a')
       = r_body (req a)
         ++ delimiter b ++ field_part E k1 v1 ++ CRLF
         ++ delimiter b ++ field_part E k2 v2 ++ CRLF
         ++ delimiter b ++ file_part E ff ++ CRLF
         ++ close_delimiter b
    /\ h_contentType (r_Header (req a')) = "multipart/form-data; boundary=" ++ b
    /\ (boundary a <> "" -> b = boundary a)
    /\ errs a' = errs a.
Proof.
  intros Hf Hb b.
  assert (Hbb : boundary a <> "" -> b = boundary a).
  { intros Hne. unfold b, multipart_boundary.
    now rewrite (string_eqb_neq _ _ Hne). }
  unfold MultipartForm. rewrite (MultipartForm_writer E a Hb). fold b.
  replace (formFiles (onHeader (Header_SetMultipartFormBoundary
                                  (mw_boundary (mkWriter b false))) a))
    with [Some ff] by (symmetry; exact Hf).
  eexists. split; [reflexivity|].
  split; [|split; [reflexivity|split; [exact Hbb|reflexivity]]].
  cbn [fold_left MultipartForm_files bind MultipartForm_field MultipartForm_file WriteField CreateFormField
       CreateFormFile CreatePart part_Write Writer_Close note_err set_req req
       onHeader Request_BodyWrite Request_mapHeader r_body fst snd
       mw_boundary mw_lastpart].
  unfold delimiter, close_delimiter, field_part, file_part, header_lines.
  rewrite file_header_order.
  cbn [MIMEHeader_Set map String.concat fst snd].
  unfold quote, CRLF. repeat first [rewrite !string_app_assoc | progress cbn [append]].
  reflexivity.
Qed.

Lemma MultipartForm_two_fields_one_file_witness :
  let a := Boundary "XyZ-42" (FileData [Some example_file] AgentZero) in
  exists a',
    MultipartForm exampleEnv (Some [("name", "fiber"); ("lang", "go")]) a = Done a'
    /\ r_body (req a')
       = delimiter "XyZ-42" ++ field_part exampleEnv "name" "fiber" ++ CRLF
         ++ delimiter "XyZ-42" ++ field_part exampleEnv "lang" "go" ++ CRLF
         ++ delimiter "XyZ-42" ++ file_part exampleEnv example_file ++ CRLF
         ++ close_delimiter "XyZ-42"
    /\ h_contentType (r_Header (req a')) = "multipart/form-data; boundary=XyZ-42".
Proof.
  intros a.
  destruct (MultipartForm_two_fields_one_file exampleEnv a "name" "fiber" "lang" "go"
              example_file eq_refl (or_intror eq_refl)) as (a' & Hr & Hb & Hc & _).
  exists a'. split; [exact Hr|]. split; [exact Hb|exact Hc].
Defined.

(** A boundary the writer refuses: the error is recorded and nothing is
    written. *)
Example MultipartForm_refused_boundary :
  let a := Boundary "no@good" (FileData [Some example_file] AgentZero) in
  MultipartForm exampleEnv (Some [("name", "fiber"); ("lang", "go")]) a
  = Done (add_err (ErrMime "mime: invalid boundary character") a).
Proof. reflexivity. Qed.

(** A nil descriptor makes [MultipartForm] panic when it reaches the
    loop over the files, and not when the boundary is refused before. *)
Example MultipartForm_nil_descriptor :
  MultipartForm exampleEnv None (FileData [None] AgentZero) = Panics
  /\ MultipartForm exampleEnv None (FileData [Some example_file; None] AgentZero) = Panics
  /\ MultipartForm exampleEnv None (Boundary "no@good" (FileData [None] AgentZero))
     = Done (add_err (ErrMime "mime: invalid boundary character")
               (Boundary "no@good" (FileData [None] AgentZero))).
Proof. repeat split. Qed.

(** ** The builder surface *)

Lemma onURI_total (f : URI -> URI) (a : Agent) :
  exists a', onURI f a = Done a' /\ errs a' = errs a.
Proof. unfold onURI. simpl. eexists. split; reflexivity. Qed.

Lemma no_nil_file_app (a : Agent) (ffs : list (option FormFile)) :
  no_nil_file a -> ~ In None ffs -> no_nil_file (FileData ffs a).
Proof.
  unfold no_nil_file, FileData. simpl. intros Ha Hf Hin.
  apply in_app_or in Hin. tauto.
Qed.

Lemma attaches_no_nil (ffs : list (option FormFile)) :
  existsb (fun f => match f with None => true | Some _ => false end) ffs = false ->
  ~ In None ffs.
Proof.
  intros H Hin. apply Bool.not_true_iff_false in H. apply H.
  apply existsb_exists. now exists None.
Qed.

Ltac plain_setter :=
  eexists; eexists; split; [reflexivity|];
  split; [cbn; rewrite ?app_nil_r; reflexivity|intros _ Hn; exact Hn].

(** Every setter call on an agent that meets its two needs (a bound host
    transport for the TLS setters, no nil descriptor for [MultipartForm])
    runs to its end, appends exactly the failures it detects, and leaves
    the agent without a nil descriptor unless it is a [FileData] that
    attaches one. *)
Lemma run_setter_total (E : Env) (s : setter E) (a : Agent) (w : World) :
  (uses_HostClient s = true -> HostClient a <> None) ->
  (reads_formFiles s = true -> no_nil_file a) ->
  exists a' w',
    run_setter s a w = Done (a', w')
    /\ errs a' = (errs a ++ detected_failures s a)%list
    /\ (attaches_nil s = false -> no_nil_file a -> no_nil_file a').
Proof.
  intros Hhc Hff.
  destruct s; cbn [run_setter uses_HostClient reads_formFiles detected_failures
                   attaches_nil] in Hhc, Hff |- *;
    unfold pure_setter, agent_setter; try plain_setter.
  - (* Cookies *)
    destruct (Cookies_total kv a) as [a' [-> [He Hf]]].
    exists a', w. split; [reflexivity|]. rewrite app_nil_r. split; [exact He|].
    unfold no_nil_file. now rewrite Hf.
  - (* JSON *)
    eexists; eexists; split; [reflexivity|]. unfold JSON.
    destruct (json_Marshal E v); cbn; rewrite ?app_nil_r; split; auto.
  - (* XML *)
    eexists; eexists; split; [reflexivity|]. unfold XML.
    destruct (xml_Marshal E v); cbn; rewrite ?app_nil_r; split; auto.
  - (* Form *)
    eexists; eexists; split; [reflexivity|].
    destruct args0; cbn; rewrite ?app_nil_r; split; auto.
  - (* FileData *)
    eexists; eexists; split; [reflexivity|]. rewrite app_nil_r.
    split; [reflexivity|]. intros Hs Hn. apply no_nil_file_app; [exact Hn|].
    now apply attaches_no_nil.
  - (* SendFile *)
    destruct (SendFile_effect E filename fieldname a w) as [He Hn].
    destruct (SendFile E filename fieldname a w) as [a' w'].
    exists a', w'. split; [reflexivity|]. split; [exact He|intros _; exact Hn].
  - (* SendFiles *)
    destruct (SendFiles_total E filenamesAndFieldnames a w) as (a' & w' & -> & He & Hn).
    exists a', w'. split; [reflexivity|]. split; [exact He|intros _; exact Hn].
  - (* MultipartForm *)
    destruct (MultipartForm_errs E args0 a (Hff eq_refl)) as (a' & -> & He & Hf).
    exists a', w. split; [reflexivity|]. split; [exact He|].
    unfold no_nil_file. now rewrite Hf.
  - (* Debug *)
    eexists; eexists; split; [reflexivity|].
    destruct w0; cbn; rewrite ?app_nil_r; split; auto.
  - (* InsecureSkipVerify *)
    unfold InsecureSkipVerify.
    destruct (HostClient a) as [hc|]; [|exfalso; now apply Hhc].
    destruct (hc_TLSConfig hc); eexists; eexists;
      (split; [reflexivity|]); cbn; rewrite ?app_nil_r; split; auto.
  - (* TLSConfig *)
    unfold TLSConfig_.
    destruct (HostClient a) as [hc|]; [|exfalso; now apply Hhc].
    eexists; eexists; split; [reflexivity|]; cbn; rewrite ?app_nil_r; split; auto.
Qed.

(** C3, as the code has it: every setter other than [InsecureSkipVerify],
    [TLSConfig] and [MultipartForm] runs to completion on every agent;
    the two TLS setters do on an agent with a bound host transport, and
    [MultipartForm] does on an agent none of whose attached descriptors is
    nil.  The call gives back the agent, whose error list is the old one
    followed by exactly the failures the call detected: the marshalling
    error of [JSON] and [XML], the read error of each file [SendFile] and
    [SendFiles] could not read, in the order of the file names, and the
    boundary the multipart writer refused. *)
Theorem setters_total_with_bound_transport (E : Env) (s : setter E)
    (a : Agent) (w : World) :
  (uses_HostClient s = true -> HostClient a <> None) ->
  (reads_formFiles s = true -> no_nil_file a) ->
  exists a' w',
    run_setter s a w = Done (a', w')
    /\ errs a' = (errs a ++ detected_failures s a)%list.
Proof.
  intros Hhc Hff.
  destruct (run_setter_total E s a w Hhc Hff) as (a' & w' & Hr & He & _).
  exists a', w'. split; [exact Hr|exact He].
Qed.

Lemma setters_total_with_bound_transport_witness :
  (exists a' w',
     run_setter (E := exampleEnv) CallInsecureSkipVerify timeoutAgent WorldZero
     = Done (a', w')
     /\ errs a' = [])
  /\ (exists a' w',
        run_setter (E := exampleEnv) (CallSendFiles ["missing.txt"; "f1"; "a.txt"])
          failedAgent WorldZero
        = Done (a', w')
        /\ errs a'
           = [ErrUnsupportedProtocol "ftp";
              ErrExternal "open: no such file or directory"])
  /\ (exists a' w',
        run_setter (E := exampleEnv) (CallMultipartForm None)
          (Boundary "no@good" (FileData [Some example_file] AgentZero)) WorldZero
        = Done (a', w')
        /\ errs a' = [ErrMime "mime: invalid boundary character"]).
Proof.
  split; [|split].
  - apply (setters_total_with_bound_transport exampleEnv CallInsecureSkipVerify
             timeoutAgent WorldZero).
    + intros _. vm_compute. discriminate.
    + simpl. discriminate.
  - apply (setters_total_with_bound_transport exampleEnv
             (CallSendFiles ["missing.txt"; "f1"; "a.txt"]) failedAgent WorldZero).
    + simpl. discriminate.
    + simpl. discriminate.
  - apply (setters_total_with_bound_transport exampleEnv (CallMultipartForm None)
             (Boundary "no@good" (FileData [Some example_file] AgentZero)) WorldZero).
    + simpl. discriminate.
    + intros _. unfold no_nil_file. simpl. intros [H|[]]. discriminate.
Defined.

(** C3 as stated fails: on an agent without a bound host transport, a
    fresh one or one whose [Parse] failed, the TLS setters panic; and on
    an agent that was given a nil descriptor [MultipartForm] panics. *)
Lemma TLS_setters_panic_without_transport :
  HostClient failedAgent = None
  /\ run_setter (E := exampleEnv) CallInsecureSkipVerify failedAgent WorldZero = Panics
  /\ run_setter (E := exampleEnv) (CallTLSConfig None) failedAgent WorldZero = Panics
  /\ run_setter (E := exampleEnv) CallInsecureSkipVerify AgentZero WorldZero = Panics
  /\ run_chain (E := exampleEnv) [CallFileData [None]; CallMultipartForm None]
       AgentZero WorldZero = Panics.
Proof. repeat split. Qed.

(** * Further properties of the client *)

(** ** Addresses and [Parse] *)

Lemma has_colon_app_colon (s t : string) : has_colon (s ++ ":" ++ t) = true.
Proof.
  induction s as [|c s IH]; simpl; [reflexivity|].
  destruct (c =? ":")%char; [reflexivity|exact IH].
Qed.

(** [addMissingPort] leaves an address with a colon alone and appends
    ":80" or ":443" to one without; its result always carries a colon, so
    applying it again changes nothing. *)
Theorem addMissingPort_adds_port_once (addr : string) (isTLS isTLS' : bool) :
  (has_colon addr = true -> addMissingPort addr isTLS = addr)
  /\ (has_colon addr = false ->
      addMissingPort addr isTLS = addr ++ (if isTLS then ":443" else ":80"))
  /\ has_colon (addMissingPort addr isTLS) = true
  /\ addMissingPort (addMissingPort addr isTLS) isTLS' = addMissingPort addr isTLS.
Proof.
  assert (H1 : has_colon addr = true -> addMissingPort addr isTLS = addr).
  { intros H. unfold addMissingPort. now rewrite H. }
  assert (H2 : has_colon addr = false ->
               addMissingPort addr isTLS = addr ++ (if isTLS then ":443" else ":80")).
  { intros H. unfold addMissingPort, JoinHostPort. rewrite H. now destruct isTLS. }
  assert (H3 : has_colon (addMissingPort addr isTLS) = true).
  { destruct (has_colon addr) eqn:Hc.
    - now rewrite (H1 eq_refl).
    - rewrite (H2 eq_refl). destruct isTLS; apply has_colon_app_colon. }
  repeat split; try assumption.
  unfold addMissingPort at 1. now rewrite H3.
Qed.

Lemma addMissingPort_adds_port_once_witness :
  addMissingPort "localhost" true = "localhost:443"
  /\ addMissingPort "[::1]:8080" false = "[::1]:8080".
Proof.
  split.
  - apply (proj1 (proj2 (addMissingPort_adds_port_once "localhost" true true))).
    reflexivity.
  - apply (proj1 (addMissingPort_adds_port_once "[::1]:8080" false false)).
    reflexivity.
Defined.

Lemma Parse_supported (a : Agent) :
  parsed a = false ->
  URI_Scheme (r_uri (effective_req a)) = strHTTP
  \/ URI_Scheme (r_uri (effective_req a)) = strHTTPS ->
  Parse a
  = (None,
     set_HostClient
       (Some (mkHostClient
                (addMissingPort (URI_Host (r_uri (effective_req a)))
                   (URI_Scheme (r_uri (effective_req a)) =? strHTTPS)%string)
                (if (Name a =? "")%string && negb (NoDefaultUserAgentHeader a)
                 then defaultUserAgent else Name a)
                (NoDefaultUserAgentHeader a)
                (URI_Scheme (r_uri (effective_req a)) =? strHTTPS)%string None))
       (set_parsed true a)).
Proof.
  intros Hp Hs. unfold Parse. rewrite Hp. unfold Parse_uri, Request_URI.
  replace (effective_req (set_parsed true a)) with (effective_req a) by reflexivity.
  destruct Hs as [Hs|Hs]; rewrite Hs; reflexivity.
Qed.

Lemma Parse_unsupported (a : Agent) :
  parsed a = false ->
  URI_Scheme (r_uri (effective_req a)) <> strHTTP ->
  URI_Scheme (r_uri (effective_req a)) <> strHTTPS ->
  Parse a
  = (Some (ErrUnsupportedProtocol (URI_Scheme (r_uri (effective_req a)))),
     set_parsed true a).
Proof.
  intros Hp N1 N2. unfold Parse. rewrite Hp. unfold Parse_uri, Request_URI.
  replace (effective_req (set_parsed true a)) with (effective_req a) by reflexivity.
  now rewrite (string_eqb_neq _ _ N1), (string_eqb_neq _ _ N2).
Qed.

(** On an agent not yet parsed whose URI has scheme http or https,
    [Parse] returns nil and binds a host client: address with the port
    filled in, TLS exactly for https, the agent's name or, when it has
    none and the default is not suppressed, "fiber".  Nothing else of the
    agent changes but the [parsed] flag, and a second [Parse] is a no-op. *)
Theorem Parse_binds_host_client (a : Agent) :
  parsed a = false ->
  URI_Scheme (r_uri (effective_req a)) = strHTTP
  \/ URI_Scheme (r_uri (effective_req a)) = strHTTPS ->
  let uri := r_uri (effective_req a) in
  let isTLS := (URI_Scheme uri =? strHTTPS)%string in
  let name :=
    if (Name a =? "")%string && negb (NoDefaultUserAgentHeader a)
    then defaultUserAgent else Name a in
  let hc := mkHostClient (addMissingPort (URI_Host uri) isTLS) name
              (NoDefaultUserAgentHeader a) isTLS None in
  let a' := set_HostClient (Some hc) (set_parsed true a) in
  Parse a = (None, a') /\ Parse a' = (None, a').
Proof.
  intros Hp Hs uri isTLS name hc a'.
  split; [|now apply Parse_parsed].
  subst a' hc name isTLS uri.
  unfold Parse. rewrite Hp. unfold Parse_uri, Request_URI.
  replace (effective_req (set_parsed true a)) with (effective_req a) by reflexivity.
  destruct Hs as [Hs|Hs]; rewrite Hs; reflexivity.
Qed.

Lemma Parse_binds_host_client_witness :
  let a := set_req (Request_mapURI (fun _ => example_parseURI "https://example.com")
                      RequestZero) (set_NoDefaultUserAgentHeader true AgentZero) in
  HostClient (snd (Parse a))
  = Some (mkHostClient "example.com:443" "" true true None).
Proof.
  intros a.
  rewrite (proj1 (Parse_binds_host_client a eq_refl (or_intror eq_refl))).
  reflexivity.
Defined.

(** ** Loops over pairs *)

(** [Cookies] sets the cookies of the (key, value) pairs of its
    arguments in order; a trailing key without a value is ignored. *)
Theorem Cookies_sets_pairs_in_order (kv : list string) (a : Agent) :
  Cookies kv a
  = Done (fold_left (fun a p => Cookie (fst p) (snd p) a) (pairs_of kv) a).
Proof.
  unfold Cookies. rewrite loop_by_2_from_1, fold_left_map_list.
  rewrite <- (pair_loop (fun a k v => Cookie k v a) kv [] 0 a eq_refl).
  apply fold_left_ext_list. intros s j.
  replace (2 * j + 1 - 1) with (2 * j) by lia. reflexivity.
Qed.

(** [SendFiles] is [SendFile] on each (file name, field name) pair of its
    arguments in order, a trailing file name going with the empty field
    name. *)
Theorem SendFiles_is_SendFile_per_pair (E : Env) (l : list string)
    (a : Agent) (w : World) :
  SendFiles E l a w
  = Done (fold_left (fun s p => SendFile E (fst p) [snd p] (fst s) (snd s))
            (pairs_padded l) (a, w)).
Proof. apply SendFiles_pairs. Qed.

(** One [SendFile] has exactly one effect on the agent: it appends one
    descriptor, or, when the file cannot be read, one error. *)
Lemma SendFile_accounts (E : Env) filename fieldname a w :
  let a' := fst (SendFile E filename fieldname a w) in
  (exists ff, formFiles a' = (formFiles a ++ [ff])%list /\ errs a' = errs a)
  \/ (exists e, formFiles a' = formFiles a /\ errs a' = (errs a ++ [e])%list).
Proof.
  unfold SendFile. destruct (ReadFile E (filepath_Clean E filename)) as [c|e].
  - destruct (AcquireFormFile E w) as [ff0 w0]. simpl. left. eexists. split; reflexivity.
  - simpl. right. exists e. split; reflexivity.
Qed.

Lemma pairs_padded_length (l : list string) :
  List.length (pairs_padded l) = Nat.div2 (List.length l + 1).
Proof.
  induction l as [|x|x y l IH] using list_pairs_ind; try reflexivity.
  cbn [pairs_padded List.length]. rewrite IH.
  now replace (S (S (List.length l)) + 1) with (S (S (List.length l + 1))) by lia.
Qed.

(** Every file name given to [SendFiles] is accounted for: the number of
    attached descriptors plus the number of recorded errors grows by the
    number of file names, half the argument count rounded up; descriptors
    and errors already there stay in front. *)
Theorem SendFiles_accounts_for_every_file (E : Env) (l : list string)
    (a : Agent) (w : World) :
  exists a' w' ffs es,
    SendFiles E l a w = Done (a', w')
    /\ formFiles a' = (formFiles a ++ ffs)%list
    /\ errs a' = (errs a ++ es)%list
    /\ List.length ffs + List.length es = Nat.div2 (List.length l + 1).
Proof.
  rewrite SendFiles_pairs, <- pairs_padded_length.
  generalize (pairs_padded l). clear l. intros ps.
  assert (H : forall a0 w0, exists ffs es,
             let s := fold_left (fun s p => SendFile E (fst p) [snd p] (fst s) (snd s))
                        ps (a0, w0) in
             formFiles (fst s) = (formFiles a0 ++ ffs)%list
             /\ errs (fst s) = (errs a0 ++ es)%list
             /\ List.length ffs + List.length es = List.length ps).
  { induction ps as [|p ps IH]; intros a0 w0.
    - exists [], []. simpl. now rewrite !app_nil_r.
    - cbn [fold_left fst snd].
      pose proof (SendFile_accounts E (fst p) [snd p] a0 w0) as Hs.
      destruct (SendFile E (fst p) [snd p] a0 w0) as [a1 w1]. cbn [fst] in Hs.
      destruct (IH a1 w1) as (ffs & es & Hf & He & Hl).
      destruct Hs as [[ff [Hf1 He1]]|[e [Hf1 He1]]].
      + exists (ff :: ffs), es. cbv zeta in *. rewrite Hf, He, Hf1, He1.
        rewrite <- app_assoc. simpl. repeat split. lia.
      + exists ffs, (e :: es). cbv zeta in *. rewrite Hf, He, Hf1, He1.
        rewrite <- app_assoc. simpl. repeat split.
        rewrite <- Hl. simpl. lia. }
  destruct (H a w) as (ffs & es & Hf & He & Hl).
  destruct (fold_left _ ps (a, w)) as [a' w'] eqn:Hfold.
  exists a', w', ffs, es. simpl in Hf, He. repeat split; assumption.
Qed.

(** ** The multipart body in general *)

Lemma string_app_nil_r (s : string) : s ++ "" = s.
Proof. induction s as [|c s IH]; simpl; [reflexivity|now rewrite IH]. Qed.

Ltac string_norm :=
  unfold delimiter, close_delimiter, field_part, file_part, header_lines, quote, CRLF;
  repeat first [rewrite !string_app_assoc | rewrite !string_app_nil_r
               | progress cbn [append]].

Lemma body_write_twice (t1 t2 : string) (a : Agent) :
  set_req (Request_BodyWrite t2 (req (set_req (Request_BodyWrite t1 (req a)) a)))
    (set_req (Request_BodyWrite t1 (req a)) a)
  = set_req (Request_BodyWrite (t1 ++ t2) (req a)) a.
Proof.
  unfold set_req, Request_BodyWrite. simpl. now rewrite string_app_assoc.
Qed.

Lemma body_write_nil (a : Agent) : set_req (Request_BodyWrite "" (req a)) a = a.
Proof.
  destruct a as [hc [h u b bs] cr ar t es ffs dw m bd n nd ru p].
  unfold set_req, Request_BodyWrite. simpl. now rewrite string_app_nil_r.
Qed.

Lemma parts_text_cons (E : Env) (b : string) (first : bool) (p : part) (ps : list part) :
  parts_text E b first (p :: ps)
  = parts_text E b first [p] ++ parts_text E b false ps.
Proof. cbn [parts_text]. rewrite string_app_nil_r. now rewrite !string_app_assoc. Qed.

Lemma parts_text_app (E : Env) (b : string) (ps qs : list part) (first : bool) :
  parts_text E b first (ps ++ qs)
  = parts_text E b first ps
    ++ parts_text E b (first && match ps with [] => true | _ => false end) qs.
Proof.
  revert first. induction ps as [|p ps IH]; intros first.
  - simpl. now rewrite andb_true_r.
  - rewrite <- app_comm_cons, parts_text_cons, IH, (parts_text_cons E b first p ps).
    rewrite andb_false_r. simpl andb.
    now rewrite string_app_assoc.
Qed.

Lemma MultipartForm_field_text (E : Env) (b : string) (lp : bool) (a : Agent)
    (kv : string * string) :
  MultipartForm_field E (mkWriter b lp, a) kv
  = (mkWriter b true,
     set_req (Request_BodyWrite
                (parts_text E b (negb lp) [FieldPart (fst kv) (snd kv)]) (req a)) a).
Proof.
  unfold MultipartForm_field, WriteField, CreateFormField, CreatePart, part_Write,
    note_err. cbn [mw_boundary mw_lastpart].
  f_equal. unfold set_req, Request_BodyWrite. cbn [req r_Header r_uri r_body r_bodyStream].
  f_equal. f_equal. cbn [parts_text part_text MIMEHeader_Set].
  unfold header_lines. cbn [map String.concat fst snd].
  destruct lp; cbn [negb]; string_norm; reflexivity.
Qed.

Lemma MultipartForm_file_text (E : Env) (b : string) (lp : bool) (a : Agent)
    (ff : FormFile) :
  MultipartForm_file E (mkWriter b lp, a) ff
  = (mkWriter b true,
     set_req (Request_BodyWrite (parts_text E b (negb lp) [FilePart ff]) (req a)) a).
Proof.
  unfold MultipartForm_file, CreateFormFile, CreatePart, part_Write, note_err.
  rewrite file_header_order. cbn [mw_boundary mw_lastpart].
  f_equal. unfold set_req, Request_BodyWrite. cbn [req r_Header r_uri r_body r_bodyStream].
  f_equal. f_equal. cbn [parts_text part_text].
  unfold header_lines. cbn [map String.concat fst snd].
  destruct lp; cbn [negb]; string_norm; reflexivity.
Qed.

Lemma MultipartForm_fields_text (E : Env) (b : string) (l : list (string * string)) :
  forall (lp : bool) (a : Agent),
    fold_left (MultipartForm_field E) l (mkWriter b lp, a)
    = (mkWriter b (lp || match l with [] => false | _ => true end),
       set_req (Request_BodyWrite
                  (parts_text E b (negb lp)
                     (map (fun kv => FieldPart (fst kv) (snd kv)) l)) (req a)) a).
Proof.
  induction l as [|kv l IH]; intros lp a.
  - simpl. now rewrite orb_false_r, body_write_nil.
  - cbn [fold_left map]. rewrite MultipartForm_field_text, IH, body_write_twice.
    rewrite orb_true_r. simpl orb. cbn [negb].
    now rewrite <- parts_text_cons.
Qed.

Lemma MultipartForm_files_text (E : Env) (b : string) (l : list FormFile) :
  forall (lp : bool) (a : Agent),
    fold_left (MultipartForm_file E) l (mkWriter b lp, a)
    = (mkWriter b (lp || match l with [] => false | _ => true end),
       set_req (Request_BodyWrite (parts_text E b (negb lp) (map FilePart l)) (req a)) a).
Proof.
  induction l as [|ff l IH]; intros lp a.
  - simpl. now rewrite orb_false_r, body_write_nil.
  - cbn [fold_left map]. rewrite MultipartForm_file_text, IH, body_write_twice.
    rewrite orb_true_r. simpl orb. cbn [negb].
    now rewrite <- parts_text_cons.
Qed.

(** With a boundary that is unset or accepted by the writer,
    and no nil descriptor attached, [MultipartForm] changes the request
    and nothing else of the agent: it declares the boundary in
    Content-Type and appends to the body the fields of the argument set in
    order, then the attached files in order, then the closing delimiter.
    With no fields and no files the appended text is the closing
    delimiter alone. *)
Theorem MultipartForm_appends_all_parts (E : Env) (form : option Args) (a : Agent)
    (ffs : list FormFile) :
  formFiles a = map Some ffs ->
  boundary a = "" \/ fst (SetBoundary (boundary a) (NewWriter E)) = None ->
  let b := multipart_boundary E a in
  let fields :=
    match form with
    | Some l => map (fun kv => FieldPart (fst kv) (snd kv)) l
    | None => []
    end in
  MultipartForm E form a
  = Done (set_req
            (mkRequest (Header_SetMultipartFormBoundary b (r_Header (req a)))
               (r_uri (req a))
               (r_body (req a) ++ multipart_text E b (fields ++ map FilePart ffs))
               (r_bodyStream (req a))) a).
Proof.
  intros Hf Hb b fields.
  unfold MultipartForm. rewrite (MultipartForm_writer E a Hb). fold b.
  cbn [mw_boundary].
  set (a0 := onHeader (Header_SetMultipartFormBoundary b) a).
  assert (Hst : match form with
                | Some l => fold_left (MultipartForm_field E) l (mkWriter b false, a0)
                | None => (mkWriter b false, a0)
                end
                = (mkWriter b (match fields with [] => false | _ => true end),
                   set_req (Request_BodyWrite (parts_text E b true fields) (req a0)) a0)).
  { unfold fields. destruct form as [l|].
    - rewrite MultipartForm_fields_text. simpl orb. cbn [negb].
      now destruct l.
    - cbn [parts_text]. now rewrite body_write_nil. }
  rewrite Hst.
  replace (formFiles a0) with (map Some ffs) by (symmetry; exact Hf).
  rewrite MultipartForm_files_present. cbn [bind].
  rewrite MultipartForm_files_text, body_write_twice.
  unfold Writer_Close, note_err. cbn [mw_boundary].
  rewrite body_write_twice.
  unfold multipart_text. rewrite parts_text_app. simpl andb.
  unfold a0, onHeader, set_req, Request_BodyWrite, Request_mapHeader.
  cbn [req r_Header r_uri r_body r_bodyStream HostClient customReq
       args timeout errs formFiles debugWriter maxRedirectsCount boundary
       Name NoDefaultUserAgentHeader reuse parsed].
  f_equal. f_equal. f_equal.
  replace (negb match fields with [] => false | _ :: _ => true end)
    with (match fields with [] => true | _ :: _ => false end) by (now destruct fields).
  now rewrite !string_app_assoc.
Qed.

Lemma MultipartForm_appends_all_parts_witness :
  exists a',
    MultipartForm exampleEnv None (Boundary "b1" AgentZero) = Done a'
    /\ r_body (req a') = CRLF ++ close_delimiter "b1".
Proof.
  eexists. split.
  - apply (MultipartForm_appends_all_parts exampleEnv None (Boundary "b1" AgentZero) []
             eq_refl (or_intror eq_refl)).
  - reflexivity.
Defined.

(** A boundary the writer refuses makes [MultipartForm] record that one
    error and return at once, before it looks at the descriptors: header
    and body of the request stay as they were; a boundary of more than 70
    bytes is such a boundary. *)
Theorem MultipartForm_refused_boundary_writes_nothing (E : Env) (args : option Args)
    (a : Agent) (e : error) :
  boundary a <> "" ->
  fst (SetBoundary (boundary a) (NewWriter E)) = Some e ->
  MultipartForm E args a = Done (add_err e a)
  /\ (70 < String.length (boundary a) -> e = ErrMime "mime: invalid boundary length").
Proof.
  intros Hne He. split.
  - unfold MultipartForm. rewrite (string_eqb_neq _ _ Hne). simpl negb. cbv iota.
    destruct (SetBoundary (boundary a) (NewWriter E)) as [err mw].
    simpl in He. now subst err.
  - intros Hlen. unfold SetBoundary, NewWriter in He. cbn [mw_lastpart] in He.
    replace (70 <? String.length (boundary a))%nat with true in He
      by (symmetry; now apply Nat.ltb_lt).
    rewrite orb_true_r in He. simpl in He. congruence.
Qed.

Lemma MultipartForm_refused_boundary_writes_nothing_witness :
  let a := Boundary "no@good" (FileData [Some example_file] AgentZero) in
  MultipartForm exampleEnv (Some [("k", "v")]) a
  = Done (add_err (ErrMime "mime: invalid boundary character") a).
Proof.
  intros a.
  apply (proj1 (MultipartForm_refused_boundary_writes_nothing exampleEnv
                  (Some [("k", "v")]) a (ErrMime "mime: invalid boundary character")
                  ltac:(discriminate) eq_refl)).
Defined.

(** ** Execution, path by path *)

Lemma release_frame (a : Agent) (w : World) :
  sent (snd (release a w)) = sent w
  /\ debugOut (snd (release a w)) = debugOut w
  /\ responsePool (snd (release a w)) = responsePool w.
Proof.
  unfold release. destruct (negb (reuse a)); [|repeat split].
  rewrite ReleaseAgent_world.
  destruct (reset_formFiles_frame (formFiles a) w) as (_ & H2 & H3 & H4).
  destruct (fst (fst (reset_files (formFiles a) w))); repeat split; assumption.
Qed.

(** Whether [release] panics depends on the agent alone. *)
Lemma release_panics_world (a : Agent) (w w' : World) :
  fst (fst (release a w)) = fst (fst (release a w')).
Proof.
  pose proof (release_panics a w) as H. pose proof (release_panics a w') as H'.
  destruct (fst (fst (release a w))), (fst (fst (release a w'))); try reflexivity.
  - symmetry. apply H'. now apply H.
  - apply H. now apply H'.
Qed.

Lemma Bytes_sends_frame (E : Env) a r resp w :
  debugOut (snd (Bytes_sends E a r resp w)) = debugOut w
  /\ agentPool (snd (Bytes_sends E a r resp w)) = agentPool w
  /\ formFilePool (snd (Bytes_sends E a r resp w)) = formFilePool w
  /\ responsePool (snd (Bytes_sends E a r resp w)) = responsePool w.
Proof.
  destruct (Bytes_sends_world E a r resp w) as [calls [-> _]]. repeat split.
Qed.

(** [Bytes] past the fail-fast return, read off the result of its send
    phase: [resp0] and [w0] are the response and the world the sends
    start from. *)
Lemma Bytes_run_from_sends (E : Env) (cr : list Response) (a : Agent) (w : World) :
  exists resp0 w0,
    sent w0 = sent w /\ debugOut w0 = debugOut w
    /\ forall sends resp1 w1,
         Bytes_sends E a (effective_req a) resp0 w0 = (sends, resp1, w1) ->
         fst (fst (Bytes_run E cr a w))
         = match sends with
           | Panics => Panicked
           | Done es =>
               if fst (fst (release a w)) then Panicked
               else
                 Returned (if (List.length es =? 0)%nat then Response_StatusCode resp1
                           else 0%Z) (Response_Body resp1) es
           end
         /\ sent (snd (Bytes_run E cr a w)) = sent w1
         /\ debugOut (snd (Bytes_run E cr a w))
            = match debugWriter a with
              | Some dw => (debugOut w1 ++ [(dw, effective_req a, resp1)])%list
              | None => debugOut w1
              end
         /\ responsePool (snd (Bytes_run E cr a w))
            = match cr with
              | [] => (responsePool w1 ++ [ResponseZero])%list
              | _ => responsePool w1
              end.
Proof.
  unfold Bytes_run.
  set (st := match cr with
             | [] => let '(r0, w0) := AcquireResponse E w in (r0, true, w0)
             | r0 :: _ => (r0, false, w)
             end).
  assert (Hst : sent (snd st) = sent w /\ debugOut (snd st) = debugOut w
                /\ snd (fst st) = match cr with [] => true | _ => false end).
  { unfold st. destruct cr; [|repeat split].
    unfold AcquireResponse. destruct (pool_Get _ _) as [[v|] p]; repeat split. }
  destruct st as [[resp0 rel] w0]. simpl in Hst. destruct Hst as (Hs & Hd & Hrel).
  exists resp0, w0. split; [exact Hs|]. split; [exact Hd|].
  intros sends resp1 w1 Hsends. rewrite Hsends.
  match goal with
  | |- context [release a ?W] =>
      destruct (release_frame a W) as (R1 & R2 & R3);
      rewrite (release_panics_world a w W);
      destruct (release a W) as [[p a'] w']
  end.
  simpl in R1, R2, R3.
  assert (Hall : sent w' = sent w1
                 /\ debugOut w'
                    = match debugWriter a with
                      | Some dw => (debugOut w1 ++ [(dw, effective_req a, resp1)])%list
                      | None => debugOut w1
                      end
                 /\ responsePool w'
                    = match cr with
                      | [] => (responsePool w1 ++ [ResponseZero])%list
                      | _ => responsePool w1
                      end).
  { rewrite R1, R2, R3. subst rel.
    destruct (debugWriter a), cr; repeat split. }
  destruct sends; [destruct p|]; simpl; (split; [reflexivity|exact Hall]).
Qed.

(** A panic of the deferred [release] is the outcome of the call. *)
Lemma Bytes_release_panics (E : Env) (cr : list Response) (a : Agent) (w : World) :
  reuse a = false -> In None (formFiles a) ->
  fst (fst (Bytes E cr a w)) = Panicked.
Proof.
  intros Hr Hn.
  assert (Hp : fst (fst (release a w)) = true) by (apply release_panics; now split).
  destruct (errs a) as [|e es] eqn:He.
  - rewrite (Bytes_no_errs E cr a w He).
    destruct (Bytes_run_from_sends E cr a w) as (resp0 & w0 & _ & _ & Hrun).
    destruct (Bytes_sends E a (effective_req a) resp0 w0) as [[sends resp1] w1] eqn:Hs.
    destruct (Hrun _ _ _ eq_refl) as (Ho & _). rewrite Ho, Hp. now destruct sends.
  - rewrite Bytes_fail_fast by congruence. simpl. now rewrite Hp.
Qed.

Lemma Bytes_sends_unbound (E : Env) a r resp w :
  HostClient a = None -> Bytes_sends E a r resp w = (Panics, resp, w).
Proof.
  intros H. unfold Bytes_sends, HostClient_call. rewrite H.
  destruct (0 <? timeout a)%Z; [reflexivity|].
  destruct (wants_redirects a r); reflexivity.
Qed.



(** Fail-fast of [Bytes] and [String]: an agent that carries errors gets
    them back with code 0 and no body, unless the deferred release
    panics, which it does on an agent without the reuse flag that holds a
    nil descriptor; in either case nothing is sent, no response is taken
    from or put into the pool, nothing is written to the debug writer. *)
Theorem execution_fails_fast_on_build_errors (E : Env) (cr : list Response)
    (a : Agent) (w : World) :
  errs a <> [] ->
  let w' := snd (Bytes E cr a w) in
  (reuse a = true \/ no_nil_file a ->
   fst (fst (Bytes E cr a w)) = Returned 0 "" (errs a)
   /\ fst (fst (String_ E cr a w)) = Returned 0 "" (errs a))
  /\ (reuse a = false /\ In None (formFiles a) ->
      fst (fst (Bytes E cr a w)) = Panicked
      /\ fst (fst (String_ E cr a w)) = Panicked)
  /\ sent w' = sent w /\ debugOut w' = debugOut w /\ responsePool w' = responsePool w.
Proof.
  intros H w'. split; [|split].
  - intros Hc. unfold String_. rewrite (Bytes_fail_fast E cr a w H). simpl.
    rewrite (release_completes a w Hc). split; reflexivity.
  - intros [Hr Hn]. unfold String_. split; now apply Bytes_release_panics.
  - unfold w'. rewrite (Bytes_fail_fast E cr a w H). simpl.
    destruct (release_frame a w) as (R1 & R2 & R3). repeat split; assumption.
Qed.

Lemma execution_fails_fast_on_build_errors_witness :
  fst (fst (Bytes exampleEnv [] failedAgent WorldZero))
  = Returned 0 "" [ErrUnsupportedProtocol "ftp"]
  /\ fst (fst (Bytes exampleEnv [] (FileData [None] failedAgent) WorldZero)) = Panicked.
Proof.
  split.
  - apply (proj1 (execution_fails_fast_on_build_errors exampleEnv [] failedAgent WorldZero
                    ltac:(discriminate))).
    right. unfold no_nil_file. simpl. tauto.
  - apply (proj1 (proj2 (execution_fails_fast_on_build_errors exampleEnv []
                           (FileData [None] failedAgent) WorldZero ltac:(discriminate)))).
    split; [reflexivity|now left].
Defined.

(** An agent without errors and without a bound host transport, one that
    was never parsed, cannot execute: each of the three calls panics
    before anything is sent. *)
Theorem execution_without_transport_panics (E : Env) (v : Value E)
    (cr : list Response) (a : Agent) (w : World) :
  errs a = [] -> HostClient a = None ->
  fst (fst (Bytes E cr a w)) = Panicked
  /\ fst (fst (String_ E cr a w)) = Panicked
  /\ fst (fst (Struct E v cr a w)) = Panicked
  /\ sent (snd (Bytes E cr a w)) = sent w.
Proof.
  intros He Hh.
  assert (HB : fst (fst (Bytes E cr a w)) = Panicked /\ sent (snd (Bytes E cr a w)) = sent w).
  { rewrite (Bytes_no_errs E cr a w He).
    destruct (Bytes_run_from_sends E cr a w) as (resp0 & w0 & Hs & _ & Hrun).
    destruct (Hrun _ _ _ (Bytes_sends_unbound E a (effective_req a) resp0 w0 Hh))
      as (Ho & Hsent & _).
    split; [exact Ho|now rewrite Hsent]. }
  destruct HB as [Ho Hs]. unfold String_. repeat split; try assumption.
  unfold Struct. destruct (Bytes E cr a w) as [[o a'] w']. simpl in Ho. now subst o.
Qed.

Lemma execution_without_transport_panics_witness :
  fst (fst (Bytes exampleEnv [] AgentZero WorldZero)) = Panicked.
Proof.
  apply (proj1 (execution_without_transport_panics exampleEnv "target" [] AgentZero
                  WorldZero eq_refl eq_refl)).
Defined.







(** Without the reuse flag an execution call on an agent that holds no
    nil descriptor ends with the agent reset to its zero state and put
    into the agent pool, whether the call failed fast, returned or
    panicked in its sends.  On an agent that holds a nil descriptor the
    deferred reset panics: the call panics and the agent is not put into
    the pool. *)
Theorem execution_recycles_agent_without_reuse (E : Env) (v : Value E)
    (cr : list Response) (a : Agent) (w : World) :
  reuse a = false ->
  (no_nil_file a ->
   snd (fst (Bytes E cr a w)) = AgentZero
   /\ agentPool (snd (Bytes E cr a w)) = (agentPool w ++ [AgentZero])%list
   /\ snd (fst (Struct E v cr a w)) = AgentZero
   /\ agentPool (snd (Struct E v cr a w)) = (agentPool w ++ [AgentZero])%list)
  /\ (In None (formFiles a) ->
      fst (fst (Bytes E cr a w)) = Panicked
      /\ fst (fst (Struct E v cr a w)) = Panicked
      /\ agentPool (snd (Bytes E cr a w)) = agentPool w
      /\ agentPool (snd (Struct E v cr a w)) = agentPool w).
Proof.
  intros Hr.
  destruct (Bytes_release E cr a w) as [w0 [Ha [Hw Hp]]].
  destruct (Struct_world E v cr a w) as [Hsw Hsa].
  assert (Hrel : release a w0 = ReleaseAgent a w0)
    by (unfold release; now rewrite Hr).
  split.
  - intros Hn.
    assert (Hc : fst (fst (ReleaseAgent a w0)) = false).
    { rewrite ReleaseAgent_panics. now apply reset_files_completes. }
    destruct (ReleaseAgent_completed a w0 Hc) as [Hz Hpool].
    rewrite Hsw, Hsa, Ha, Hw, Hrel, Hz, Hpool, Hp. repeat split.
  - intros Hn.
    assert (Hc : fst (fst (ReleaseAgent a w0)) = true).
    { rewrite ReleaseAgent_panics. now apply reset_files_panics. }
    pose proof (Bytes_release_panics E cr a w Hr Hn) as Ho.
    rewrite Hsw, Hw, Hrel, (ReleaseAgent_panicked a w0 Hc), Hp.
    repeat split; try assumption.
    unfold Struct. destruct (Bytes E cr a w) as [[o a'] w']. simpl in Ho. now subst o.
Qed.

Lemma execution_recycles_agent_without_reuse_witness :
  agentPool (snd (Bytes exampleEnv [] timeoutAgent WorldZero)) = [AgentZero]
  /\ fst (fst (Bytes exampleEnv [] (FileData [None] timeoutAgent) WorldZero)) = Panicked
  /\ agentPool (snd (Bytes exampleEnv [] (FileData [None] timeoutAgent) WorldZero)) = [].
Proof.
  split; [|split].
  - apply (proj1 (execution_recycles_agent_without_reuse exampleEnv "target" []
                    timeoutAgent WorldZero eq_refl)).
    unfold no_nil_file. simpl. tauto.
  - apply (proj2 (execution_recycles_agent_without_reuse exampleEnv "target" []
                    (FileData [None] timeoutAgent) WorldZero eq_refl)).
    now left.
  - apply (proj2 (execution_recycles_agent_without_reuse exampleEnv "target" []
                    (FileData [None] timeoutAgent) WorldZero eq_refl)).
    now left.
Defined.

(** [Struct] is [Bytes] followed by the decoder: agent, world, code and
    body are those of [Bytes], and the errors are those of [Bytes] with
    the decoding error, if any, behind them.  The decoder runs on the
    body also when [Bytes] reported errors. *)
Theorem Struct_extends_Bytes (E : Env) (v : Value E) (cr : list Response)
    (a : Agent) (w : World) :
  snd (fst (Struct E v cr a w)) = snd (fst (Bytes E cr a w))
  /\ snd (Struct E v cr a w) = snd (Bytes E cr a w)
  /\ fst (fst (Struct E v cr a w))
     = match fst (fst (Bytes E cr a w)) with
       | Panicked => Panicked
       | Returned code body es =>
           Returned code body
             (es ++ match json_Unmarshal E body v with
                    | Some e => [e]
                    | None => []
                    end)%list
       end.
Proof.
  unfold Struct. destruct (Bytes E cr a w) as [[o a'] w'].
  destruct o as [code body es|]; [|repeat split].
  destruct (json_Unmarshal E body v) as [e|] eqn:Hd; cbn [fst snd];
    rewrite ?Hd, ?app_nil_r; repeat split.
Qed.

(** ** The pools *)

Lemma Forall_remove_nth {A : Type} (P : A -> Prop) (k : nat) (l : list A) :
  Forall P l -> Forall P (remove_nth k l).
Proof.
  intros H. revert k. induction H as [|x l Hx Hl IH]; intros k.
  - destruct k; constructor.
  - destruct k; simpl; [exact Hl|constructor; [exact Hx|apply IH]].
Qed.

Lemma pool_Get_zero {A : Type} (z : A) (k : nat) (p : list A) :
  Forall (eq z) p ->
  Forall (eq z) (snd (pool_Get k p))
  /\ match fst (pool_Get k p) with Some x => x = z | None => True end.
Proof.
  intros H. unfold pool_Get. destruct (nth_error p k) as [x|] eqn:Hn; simpl.
  - split; [now apply Forall_remove_nth|].
    symmetry. eapply (proj1 (Forall_forall _ _) H). eapply nth_error_In; eassumption.
  - split; [exact H|exact I].
Qed.

Lemma AcquireAgent_zero (E : Env) (w : World) :
  pools_zero w -> fst (AcquireAgent E w) = AgentZero /\ pools_zero (snd (AcquireAgent E w)).
Proof.
  intros (HA & HF & HR). unfold AcquireAgent.
  destruct (pool_Get_zero AgentZero (choose E (List.length (agentPool w))) (agentPool w) HA)
    as [Hp Hx].
  destruct (pool_Get _ (agentPool w)) as [[x|] p]; simpl in *.
  - split; [exact Hx|]. repeat split; assumption.
  - split; [reflexivity|]. repeat split; assumption.
Qed.

Lemma AcquireFormFile_zero (E : Env) (w : World) :
  pools_zero w ->
  fst (AcquireFormFile E w) = FormFileZero /\ pools_zero (snd (AcquireFormFile E w)).
Proof.
  intros (HA & HF & HR). unfold AcquireFormFile.
  destruct (pool_Get_zero FormFileZero (choose E (List.length (formFilePool w)))
              (formFilePool w) HF) as [Hp Hx].
  destruct (pool_Get _ (formFilePool w)) as [[x|] p]; simpl in *.
  - split; [exact Hx|]. repeat split; assumption.
  - split; [reflexivity|]. repeat split; assumption.
Qed.

Lemma AcquireResponse_zero (E : Env) (w : World) :
  pools_zero w -> pools_zero (snd (AcquireResponse E w)).
Proof.
  intros (HA & HF & HR). unfold AcquireResponse.
  destruct (pool_Get_zero ResponseZero (choose E (List.length (responsePool w)))
              (responsePool w) HR) as [Hp Hx].
  destruct (pool_Get _ (responsePool w)) as [[x|] p]; simpl in *;
    repeat split; assumption.
Qed.

Lemma Forall_snoc {A : Type} (P : A -> Prop) (l : list A) (x : A) :
  Forall P l -> P x -> Forall P (l ++ [x]).
Proof. intros Hl Hx. apply Forall_app. split; [exact Hl|now constructor]. Qed.

Lemma release_zero (a : Agent) (w : World) : pools_zero w -> pools_zero (snd (release a w)).
Proof.
  intros (HA & HF & HR). unfold release. destruct (negb (reuse a)); [|repeat split; assumption].
  destruct (ReleaseAgent_formFilePool a w) as [n Hn].
  assert (HF' : Forall (eq FormFileZero) (formFilePool (snd (ReleaseAgent a w)))).
  { rewrite Hn. apply Forall_app. split; [exact HF|].
    apply Forall_forall. intros x Hx. symmetry. eapply repeat_spec; eassumption. }
  assert (HR' : responsePool (snd (ReleaseAgent a w)) = responsePool w).
  { rewrite ReleaseAgent_world.
    destruct (reset_formFiles_frame (formFiles a) w) as (_ & _ & H3 & _).
    now destruct (fst (fst (reset_files (formFiles a) w))). }
  split; [|split; [exact HF'|now rewrite HR']].
  destruct (fst (fst (ReleaseAgent a w))) eqn:Hp.
  - now rewrite (ReleaseAgent_panicked a w Hp).
  - rewrite (proj2 (ReleaseAgent_completed a w Hp)). now apply Forall_snoc.
Qed.

Lemma Bytes_zero (E : Env) (cr : list Response) (a : Agent) (w : World) :
  pools_zero w -> pools_zero (snd (Bytes E cr a w)).
Proof.
  intros Hz. unfold Bytes. simpl app.
  destruct (0 <? List.length (errs a))%nat.
  - pose proof (release_zero a w Hz) as H.
    destruct (release a w) as [[p a'] w']. exact H.
  - unfold Bytes_run.
    set (st := match cr with
               | [] => let '(r0, w0) := AcquireResponse E w in (r0, true, w0)
               | r0 :: _ => (r0, false, w)
               end).
    assert (Hst : pools_zero (snd st)).
    { unfold st. destruct cr; [|exact Hz].
      pose proof (AcquireResponse_zero E w Hz) as H.
      now destruct (AcquireResponse E w). }
    destruct st as [[resp0 rel] w0]. simpl in Hst.
    destruct (Bytes_sends_frame E a (effective_req a) resp0 w0) as (_ & F1 & F2 & F3).
    destruct (Bytes_sends E a (effective_req a) resp0 w0) as [[o resp1] w1].
    simpl in F1, F2, F3.
    match goal with
    | |- context [release a ?W] =>
        assert (HW : pools_zero W);
        [|pose proof (release_zero a W HW) as H;
          destruct (release a W) as [[p a'] w'];
          destruct o; [destruct p|]; exact H]
    end.
    destruct Hst as (HA & HF & HR).
    destruct (debugWriter a), rel; unfold pools_zero, ReleaseResponse, printDebugInfo,
      pool_Put; simpl; rewrite ?F1, ?F2, ?F3; repeat split;
      try assumption; now apply Forall_snoc.
Qed.

Lemma SendFile_zero (E : Env) filename fieldname a w :
  pools_zero w -> pools_zero (snd (SendFile E filename fieldname a w)).
Proof.
  intros Hz. unfold SendFile. destruct (ReadFile E (filepath_Clean E filename)); [|exact Hz].
  pose proof (proj2 (AcquireFormFile_zero E w Hz)) as H.
  now destruct (AcquireFormFile E w).
Qed.

(** The pools only ever hold zero objects: if they do before, they do
    after each execution call, each file loading, each agent creation and
    each release, also one that panics on a nil descriptor. *)
Theorem pooled_objects_stay_zero (E : Env) (v : Value E) (cr : list Response)
    (a : Agent) (w : World) :
  pools_zero w ->
  pools_zero (snd (Bytes E cr a w))
  /\ pools_zero (snd (Struct E v cr a w))
  /\ (forall filename fieldname, pools_zero (snd (SendFile E filename fieldname a w)))
  /\ (forall l a' w', SendFiles E l a w = Done (a', w') -> pools_zero w')
  /\ (forall c method url, pools_zero (snd (createAgent E c method url w)))
  /\ pools_zero (snd (ReleaseAgent a w)).
Proof.
  intros Hz. split; [now apply Bytes_zero|].
  split; [rewrite (proj1 (Struct_world E v cr a w)); now apply Bytes_zero|].
  split; [intros; now apply SendFile_zero|]. split; [|split].
  - intros l a' w'. rewrite SendFiles_pairs.
    generalize (pairs_padded l). intros ps. revert a w Hz.
    induction ps as [|p ps IH]; intros a w Hz H.
    + simpl in H. inversion H. now subst.
    + cbn [fold_left fst snd] in H.
      pose proof (SendFile_zero E (fst p) [snd p] a w Hz) as Hs.
      destruct (SendFile E (fst p) [snd p] a w) as [a1 w1].
      apply (IH a1 w1 Hs H).
  - intros c method url. unfold createAgent.
    pose proof (proj2 (AcquireAgent_zero E w Hz)) as H.
    destruct (AcquireAgent E w) as [a0 w0].
    now destruct (Parse _).
  - pose proof (release_zero (set_reuse false a) w Hz) as H.
    unfold release in H. exact H.
Qed.

Lemma pooled_objects_stay_zero_witness :
  pools_zero (snd (Bytes exampleEnv [] timeoutAgent WorldZero)).
Proof.
  apply (proj1 (pooled_objects_stay_zero exampleEnv "target" [] timeoutAgent WorldZero
                  ltac:(repeat split; constructor))).
Defined.

(** With zero pools, [SendFile] on a readable file attaches a descriptor
    that holds exactly the content read, under the base name of the file
    and the given field name or the positional default, and marks it as
    owned by the agent. *)
Theorem SendFile_attaches_file_content (E : Env) (filename : string)
    (fieldname : list string) (a : Agent) (w : World) (content : string) :
  pools_zero w ->
  ReadFile E (filepath_Clean E filename) = inl content ->
  let name :=
    match fieldname with
    | f :: _ =>
        if (f =? "")%string
        then "file" ++ Itoa (Z.of_nat (List.length (formFiles a)) + 1)
        else f
    | [] => "file" ++ Itoa (Z.of_nat (List.length (formFiles a)) + 1)
    end in
  fst (SendFile E filename fieldname a w)
  = set_formFiles
      (formFiles a ++ [Some (mkFormFile name (filepath_Base E filename) content true)])%list
      a.
Proof.
  intros Hz Hr name. unfold SendFile. rewrite Hr.
  pose proof (proj1 (AcquireFormFile_zero E w Hz)) as H0.
  destruct (AcquireFormFile E w) as [ff0 w0]. simpl in H0. subst ff0.
  subst name. cbn [fst Content FormFileZero append].
  destruct fieldname as [|f fs]; [reflexivity|].
  cbn [hd]. destruct (f =? "")%string; reflexivity.
Qed.

Lemma SendFile_attaches_file_content_witness :
  formFiles (fst (SendFile exampleEnv "b.txt" [] AgentZero WorldZero))
  = [Some (mkFormFile "file1" "b.txt" "beta" true)].
Proof.
  rewrite (SendFile_attaches_file_content exampleEnv "b.txt" [] AgentZero WorldZero "beta"
             ltac:(repeat split; constructor) eq_refl).
  reflexivity.
Defined.

(** ** The factory *)

Lemma createAgent_fresh (E : Env) (c : Client) (method url : string) (w : World) :
  pools_zero w ->
  let base :=
    set_NoDefaultUserAgentHeader (c_NoDefaultUserAgentHeader c)
      (set_Name (c_UserAgent c)
         (set_req (Request_mapURI (fun _ => parseURI E url)
                     (req (onHeader (Header_SetMethod method) AgentZero)))
            (onHeader (Header_SetMethod method) AgentZero))) in
  fst (createAgent E c method url w) = note_err (fst (Parse base)) (snd (Parse base))
  /\ sent (snd (createAgent E c method url w)) = sent w.
Proof.
  intros Hz base. unfold createAgent.
  pose proof (proj1 (AcquireAgent_zero E w Hz)) as H0.
  assert (Hs : sent (snd (AcquireAgent E w)) = sent w).
  { unfold AcquireAgent. now destruct (pool_Get _ _) as [[x|] p]. }
  destruct (AcquireAgent E w) as [a0 w0]. simpl in H0, Hs. subst a0.
  fold base. destruct (Parse base) as [err a1]. split; [reflexivity|exact Hs].
Qed.

(** With zero pools, [createAgent] gives an agent with the method and
    the parsed URL in its request and with [Parse] already run.  For a
    URL of scheme http or https the agent has no error and a bound host
    client named after the client, or "fiber".  For any other scheme
    the agent carries the unsupported-protocol error and no host client,
    and executing it returns that error without sending. *)
Theorem createAgent_parses_url (E : Env) (c : Client) (method url : string)
    (cr : list Response) (w : World) :
  pools_zero w ->
  let uri := parseURI E url in
  let isTLS := (URI_Scheme uri =? strHTTPS)%string in
  let name :=
    if (c_UserAgent c =? "")%string && negb (c_NoDefaultUserAgentHeader c)
    then defaultUserAgent else c_UserAgent c in
  let a := fst (createAgent E c method url w) in
  let w' := snd (createAgent E c method url w) in
  h_method (r_Header (req a)) = method /\ r_uri (req a) = uri /\ parsed a = true
  /\ (URI_Scheme uri = strHTTP \/ URI_Scheme uri = strHTTPS ->
      errs a = []
      /\ HostClient a
         = Some (mkHostClient (addMissingPort (URI_Host uri) isTLS) name
                   (c_NoDefaultUserAgentHeader c) isTLS None))
  /\ (URI_Scheme uri <> strHTTP -> URI_Scheme uri <> strHTTPS ->
      errs a = [ErrUnsupportedProtocol (URI_Scheme uri)]
      /\ HostClient a = None
      /\ fst (fst (Bytes E cr a w')) = Returned 0 "" [ErrUnsupportedProtocol (URI_Scheme uri)]
      /\ sent (snd (Bytes E cr a w')) = sent w).
Proof.
  intros Hz uri isTLS name a w'.
  destruct (createAgent_fresh E c method url w Hz) as [Ha Hs].
  subst a w'. rewrite Ha. clear Ha.
  set (base := set_NoDefaultUserAgentHeader (c_NoDefaultUserAgentHeader c) _).
  assert (Hu : r_uri (effective_req base) = uri) by reflexivity.
  assert (Hcases :
            (URI_Scheme uri = strHTTP \/ URI_Scheme uri = strHTTPS ->
             Parse base
             = (None,
                set_HostClient
                  (Some (mkHostClient (addMissingPort (URI_Host uri) isTLS) name
                           (c_NoDefaultUserAgentHeader c) isTLS None))
                  (set_parsed true base)))
            /\ (URI_Scheme uri <> strHTTP -> URI_Scheme uri <> strHTTPS ->
                Parse base
                = (Some (ErrUnsupportedProtocol (URI_Scheme uri)), set_parsed true base))).
  { split.
    - intros Hok. apply (Parse_supported base eq_refl). now rewrite Hu.
    - intros N1 N2. apply (Parse_unsupported base eq_refl); now rewrite Hu. }
  destruct Hcases as [Hok Hbad].
  assert (Hdec : (URI_Scheme uri = strHTTP \/ URI_Scheme uri = strHTTPS)
                 \/ (URI_Scheme uri <> strHTTP /\ URI_Scheme uri <> strHTTPS)).
  { destruct (string_dec (URI_Scheme uri) strHTTP) as [H|H]; [now left; left|].
    destruct (string_dec (URI_Scheme uri) strHTTPS) as [H'|H']; [now left; right|].
    right. now split. }
  destruct Hdec as [Hs1|[N1 N2]].
  - rewrite (Hok Hs1). cbn [fst snd note_err].
    split; [reflexivity|]. split; [reflexivity|]. split; [reflexivity|].
    split; [intros _; split; reflexivity|].
    intros M1 M2. destruct Hs1; contradiction.
  - rewrite (Hbad N1 N2). cbn [fst snd note_err].
    split; [reflexivity|]. split; [reflexivity|]. split; [reflexivity|].
    split; [intros [H|H]; contradiction|].
    intros _ _. split; [reflexivity|]. split; [reflexivity|].
    match goal with
    | |- context [Bytes E cr ?A ?W] =>
        assert (He : errs A <> []) by (simpl; discriminate);
        rewrite (Bytes_fail_fast E cr A W He);
        pose proof (release_sent A W) as Hr;
        rewrite (release_completes A W (or_intror (fun H : In None [] => H)))
    end.
    split; [reflexivity|]. cbn [fst snd]. rewrite Hr. exact Hs.
Qed.

Lemma createAgent_parses_url_witness :
  errs (fst (Post exampleEnv "ftp://example.com" WorldZero))
  = [ErrUnsupportedProtocol "ftp"]
  /\ HostClient (fst (Get exampleEnv "https://example.com" WorldZero))
     = Some (mkHostClient "example.com:443" "fiber" false true None).
Proof.
  assert (Hz : pools_zero WorldZero) by (repeat split; constructor).
  split.
  - apply (proj2 (proj2 (proj2 (proj2
             (createAgent_parses_url exampleEnv defaultClient MethodPost
                "ftp://example.com" [] WorldZero Hz)))));
      vm_compute; discriminate.
  - apply (proj1 (proj2 (proj2 (proj2
             (createAgent_parses_url exampleEnv defaultClient MethodGet
                "https://example.com" [] WorldZero Hz))))).
    right. reflexivity.
Defined.

(** ** TLS and chains *)

(** On an agent with a bound host client, [InsecureSkipVerify] turns the
    flag on in the TLS configuration, keeping the rest of a configuration
    that was there, and leaves address, name and TLS mode of the host
    client and every other field of the agent alone; a second call
    changes nothing. *)
Theorem InsecureSkipVerify_sets_flag_only (a : Agent) (hc : fasthttp_HostClient) :
  HostClient a = Some hc ->
  let rest :=
    match hc_TLSConfig hc with
    | Some c => tls_rest c
    | None => 0
    end in
  let a' :=
    set_HostClient
      (Some (mkHostClient (hc_Addr hc) (hc_Name hc) (hc_NoDefaultUserAgentHeader hc)
               (hc_IsTLS hc) (Some (mkTLSConfig true rest)))) a in
  InsecureSkipVerify a = Done a' /\ InsecureSkipVerify a' = Done a'.
Proof.
  intros Hh rest a'. subst rest a'. unfold InsecureSkipVerify. rewrite Hh.
  destruct (hc_TLSConfig hc); split; reflexivity.
Qed.

Lemma InsecureSkipVerify_sets_flag_only_witness :
  exists a',
    InsecureSkipVerify timeoutAgent = Done a'
    /\ HostClient a'
       = Some (mkHostClient "example.com:80" "fiber" false false
                 (Some (mkTLSConfig true 0))).
Proof.
  eexists. split.
  - apply (proj1 (InsecureSkipVerify_sets_flag_only timeoutAgent
                    (mkHostClient "example.com:80" "fiber" false false None) eq_refl)).
  - reflexivity.
Defined.

(** A chain of setters that stay away from [a.HostClient] runs to its end
    when [MultipartForm] cannot meet a nil descriptor: the chain holds no
    [MultipartForm], or the agent holds no nil descriptor and no
    [FileData] of the chain attaches one.  The earlier errors stay in
    front. *)
Theorem run_chain_total (E : Env) (l : list (setter E)) (a : Agent) (w : World) :
  forallb (fun s => negb (uses_HostClient s)) l = true ->
  forallb (fun s => negb (reads_formFiles s)) l = true
  \/ (no_nil_file a /\ forallb (fun s => negb (attaches_nil s)) l = true) ->
  exists a' w', run_chain l a w = Done (a', w') /\ errs_extended a a'.
Proof.
  intros Hl [Hr|[Hn Hf]].
  - revert a w Hl Hr. induction l as [|s l IH]; intros a w Hl Hr.
    + exists a, w. split; [reflexivity|now apply errs_extended_refl].
    + simpl in Hl, Hr. apply andb_true_iff in Hl, Hr.
      destruct Hl as [Hs Hl]. destruct Hr as [Hm Hr].
      destruct (run_setter_total E s a w) as (a1 & w1 & H1 & E1 & _).
      * intros Hu. rewrite Hu in Hs. discriminate.
      * intros Hu. rewrite Hu in Hm. discriminate.
      * simpl. rewrite H1. simpl.
        destruct (IH a1 w1 Hl Hr) as (a2 & w2 & H2 & E2).
        exists a2, w2. split; [exact H2|].
        eapply errs_extended_trans; [|exact E2]. eexists. exact E1.
  - revert a w Hl Hn Hf. induction l as [|s l IH]; intros a w Hl Hn Hf.
    + exists a, w. split; [reflexivity|now apply errs_extended_refl].
    + simpl in Hl, Hf. apply andb_true_iff in Hl, Hf.
      destruct Hl as [Hs Hl]. destruct Hf as [Ha Hf].
      destruct (run_setter_total E s a w) as (a1 & w1 & H1 & E1 & N1).
      * intros Hu. rewrite Hu in Hs. discriminate.
      * intros _. exact Hn.
      * simpl. rewrite H1. simpl.
        destruct (IH a1 w1 Hl) as (a2 & w2 & H2 & E2).
        -- apply N1; [|exact Hn]. now destruct (attaches_nil s).
        -- exact Hf.
        -- exists a2, w2. split; [exact H2|].
           eapply errs_extended_trans; [|exact E2]. eexists. exact E1.
Qed.

Lemma run_chain_total_witness :
  exists a' w',
    run_chain (E := exampleEnv)
      [CallFileData [Some example_file]; CallSendFile "missing.txt" [];
       CallBoundary "b1"; CallMultipartForm None]
      failedAgent WorldZero = Done (a', w')
    /\ errs_extended failedAgent a'.
Proof.
  apply (run_chain_total exampleEnv).
  - reflexivity.
  - right. split; [|reflexivity]. unfold no_nil_file. simpl. tauto.
Defined.

(** A nil descriptor handed to [FileData] makes a later [MultipartForm]
    panic, and nothing else of the chain. *)
Example FileData_nil_then_MultipartForm :
  run_chain (E := exampleEnv) [CallFileData [None]; CallMultipartForm None]
    failedAgent WorldZero = Panics
  /\ exists a' w',
       run_chain (E := exampleEnv) [CallFileData [None]; CallSendFile "a.txt" []]
         failedAgent WorldZero = Done (a', w').
Proof. split; [reflexivity|]. eexists; eexists; reflexivity. Qed.

(** * Properties of the request context *)

(** ** Content negotiation *)

Lemma spec_loop_acceptable (L : CtxLib) (offer : string) (specs : list string) :
  ctx.spec_loop L offer specs = true
  <-> exists spec,
        In spec specs
        /\ (HasPrefix (TrimSpace L spec) "*" = true
            \/ HasPrefix (TrimSpace L spec) offer = true).
Proof.
  induction specs as [|s specs IH]; simpl.
  - split; [discriminate|intros [spec [[] _]]].
  - destruct (HasPrefix (TrimSpace L s) "*") eqn:H1.
    { split; [intros _; exists s; auto|reflexivity]. }
    destruct (HasPrefix (TrimSpace L s) offer) eqn:H2.
    { split; [intros _; exists s; auto|reflexivity]. }
    rewrite IH. split.
    + intros [spec [Hin Hm]]. exists spec. auto.
    + intros [spec [[<-|Hin] Hm]].
      * destruct Hm; congruence.
      * exists spec. auto.
Qed.

Lemma offer_loop_first (L : CtxLib) (h : string) (offers : list string) :
  first_acceptable L h offers (ctx.offer_loop L offers (Split "," h)).
Proof.
  induction offers as [|o offers IH]; simpl.
  - right. split; [intros x []|reflexivity].
  - destruct (ctx.spec_loop L o (Split "," h)) eqn:Hs.
    + left. exists [], offers. split; [reflexivity|]. split; [intros x []|].
      now apply spec_loop_acceptable.
    + assert (Hno : ~ acceptable L h o).
      { intros Ha. apply spec_loop_acceptable in Ha. congruence. }
      destruct IH as [(pre & post & He & Hpre & Hacc)|[Hnone Hr]].
      * left. exists (o :: pre), post. split; [simpl; now rewrite <- He|].
        split; [|exact Hacc]. intros x [<-|Hx]; [exact Hno|now apply Hpre].
      * right. split; [|exact Hr]. intros x [<-|Hx]; [exact Hno|now apply Hnone].
Qed.

Lemma accepts_first (L : CtxLib) (c : Ctx) (header : string) (offers : list string) :
  ctx.Get c header <> "" ->
  first_acceptable L (ctx.Get c header) offers (ctx.accepts L c header offers).
Proof.
  intros Hh. unfold ctx.accepts. destruct offers as [|o offers].
  - right. split; [intros x []|reflexivity].
  - rewrite (string_eqb_neq _ _ Hh). apply offer_loop_first.
Qed.

(** When the request has the header, [AcceptsCharsets],
    [AcceptsEncodings] and [AcceptsLanguages] return the first offer, in
    the order of the offers, that some spec of the header accepts by
    prefix or by a leading "*", and the empty string when no offer is
    accepted; quality values play no part. *)
Theorem Accepts_returns_first_acceptable_offer (L : CtxLib) (c : Ctx)
    (offers : list string) :
  (ctx.Get c HeaderAcceptCharset <> "" ->
   first_acceptable L (ctx.Get c HeaderAcceptCharset) offers
     (ctx.AcceptsCharsets L c offers))
  /\ (ctx.Get c HeaderAcceptEncoding <> "" ->
      first_acceptable L (ctx.Get c HeaderAcceptEncoding) offers
        (ctx.AcceptsEncodings L c offers))
  /\ (ctx.Get c HeaderAcceptLanguage <> "" ->
      first_acceptable L (ctx.Get c HeaderAcceptLanguage) offers
        (ctx.AcceptsLanguages L c offers)).
Proof. repeat split; apply accepts_first. Qed.

Lemma Accepts_returns_first_acceptable_offer_witness :
  first_acceptable exampleLib "gzip;q=0, br" ["deflate"; "gzip"; "br"]
    (ctx.AcceptsEncodings exampleLib exampleCtx ["deflate"; "gzip"; "br"])
  /\ ctx.AcceptsEncodings exampleLib exampleCtx ["deflate"; "gzip"; "br"] = "gzip".
Proof.
  split; [|reflexivity].
  apply (proj1 (proj2 (Accepts_returns_first_acceptable_offer exampleLib exampleCtx
                         ["deflate"; "gzip"; "br"]))).
  discriminate.
Defined.

Lemma accepts_edges (L : CtxLib) (c : Ctx) (header : string) (offers : list string) :
  ctx.accepts L c header [] = ""
  /\ (ctx.Get c header = "" -> ctx.accepts L c header offers = hd "" offers)
  /\ (ctx.accepts L c header offers = ""
      \/ In (ctx.accepts L c header offers) offers).
Proof.
  split; [reflexivity|]. split.
  - intros Hh. unfold ctx.accepts. destruct offers; [reflexivity|]. now rewrite Hh.
  - unfold ctx.accepts. destruct offers as [|o offers]; [now left|].
    destruct (ctx.Get c header =? "")%string; [right; now left|].
    generalize (o :: offers). intros l.
    induction l as [|x l IH]; simpl; [now left|].
    destruct (ctx.spec_loop L x (Split "," (ctx.Get c header))); [right; now left|].
    destruct IH; [now left|right; now right].
Qed.

(** The three [Accepts...] helpers return the empty string when given no
    offers, the first offer when the request lacks the header, and in
    every case the empty string or one of the offers. *)
Theorem Accepts_without_offers_or_header (L : CtxLib) (c : Ctx) (offers : list string) :
  (ctx.AcceptsCharsets L c [] = ""
   /\ (ctx.Get c HeaderAcceptCharset = "" -> ctx.AcceptsCharsets L c offers = hd "" offers)
   /\ (ctx.AcceptsCharsets L c offers = "" \/ In (ctx.AcceptsCharsets L c offers) offers))
  /\ (ctx.AcceptsEncodings L c [] = ""
      /\ (ctx.Get c HeaderAcceptEncoding = "" ->
          ctx.AcceptsEncodings L c offers = hd "" offers)
      /\ (ctx.AcceptsEncodings L c offers = ""
          \/ In (ctx.AcceptsEncodings L c offers) offers))
  /\ (ctx.AcceptsLanguages L c [] = ""
      /\ (ctx.Get c HeaderAcceptLanguage = "" ->
          ctx.AcceptsLanguages L c offers = hd "" offers)
      /\ (ctx.AcceptsLanguages L c offers = ""
          \/ In (ctx.AcceptsLanguages L c offers) offers)).
Proof.
  unfold ctx.AcceptsCharsets, ctx.AcceptsEncodings, ctx.AcceptsLanguages.
  split; [|split]; apply accepts_edges.
Qed.

Lemma Accepts_without_offers_or_header_witness :
  ctx.AcceptsLanguages exampleLib exampleCtx ["en"; "fr"] = "en".
Proof.
  apply (proj1 (proj2 (proj2 (proj2
           (Accepts_without_offers_or_header exampleLib exampleCtx ["en"; "fr"]))))).
  reflexivity.
Defined.

(** ** Splitting *)

Lemma Split_length (sep : ascii) (s : string) :
  List.length (Split sep s) = S (count_byte sep s).
Proof.
  induction s as [|c s IH]; simpl; [reflexivity|].
  destruct (c =? sep)%char; simpl; [now rewrite IH|].
  destruct (Split sep s) as [|h r]; simpl in *; [discriminate|exact IH].
Qed.

(** The pieces of [Split] put together again with the separator give the
    text back. *)
Lemma Split_concat (sep : ascii) (s : string) :
  String.concat (String sep "") (Split sep s) = s.
Proof.
  induction s as [|c s IH]; [reflexivity|].
  pose proof (Split_length sep s) as Hl.
  simpl Split. destruct (Split sep s) as [|h r]; [discriminate|].
  destruct (c =? sep)%char eqn:Hc.
  - apply Ascii.eqb_eq in Hc. subst c.
    change (String.concat (String sep "") ("" :: h :: r))
      with (String sep (String.concat (String sep "") (h :: r))).
    now rewrite IH.
  - destruct r as [|h' r].
    + simpl in IH |- *. now rewrite IH.
    + change (String.concat (String sep "") (String c h :: h' :: r))
        with (String c (String.concat (String sep "") (h :: h' :: r))).
      now rewrite IH.
Qed.

(** [IPs] never returns an empty list: it has one entry more than the
    X-Forwarded-For header has commas, so a request without the header
    yields one entry, the trimmed empty string. *)
Theorem IPs_has_one_entry_per_comma_plus_one (L : CtxLib) (c : Ctx) :
  List.length (ctx.IPs L c) = S (count_byte "," (ctx.Get c HeaderXForwardedFor))
  /\ (ctx.Get c HeaderXForwardedFor = "" -> ctx.IPs L c = [TrimSpace L ""]).
Proof.
  unfold ctx.IPs. split.
  - now rewrite length_map, Split_length.
  - intros H. now rewrite H.
Qed.

Lemma IPs_has_one_entry_per_comma_plus_one_witness :
  ctx.IPs exampleLib exampleCtx = [""].
Proof.
  apply (proj2 (IPs_has_one_entry_per_comma_plus_one exampleLib exampleCtx)).
  reflexivity.
Defined.

(** ** Extension test, route parameters, subdomains *)

(** [IS] panics on the empty extension.  On any other it reports
    whether the extension, with a dot put in front when it has none, is
    among the extensions of the request's content type; so "html" and
    ".html" get the same answer. *)
Theorem IS_normalises_the_dot (L : CtxLib) (c : Ctx) (ext : string) :
  let exts := mime_ExtensionsByType L (ctx.Get c HeaderContentType) in
  ctx.IS L c "" = Panics
  /\ (ctx.IS L c ("." ++ ext) = Done true <-> In ("." ++ ext) exts)
  /\ (forall c0 t, ext = String c0 t -> c0 <> "."%char ->
      ctx.IS L c ext = ctx.IS L c ("." ++ ext)).
Proof.
  intros exts. split; [reflexivity|].
  change ("." ++ ext) with (String "." ext).
  assert (Hd : ctx.IS L c (String "." ext)
               = Done (existsb (fun item => (item =? String "." ext)%string) exts))
    by reflexivity.
  split.
  - rewrite Hd. split.
    + intros H. injection H as He. apply existsb_exists in He.
      destruct He as [x [Hin Hx]]. apply String.eqb_eq in Hx. now subst x.
    + intros Hin. f_equal. apply existsb_exists. exists (String "." ext).
      split; [exact Hin|apply String.eqb_refl].
  - intros c0 t -> Hc. rewrite Hd. unfold ctx.IS.
    apply Ascii.eqb_neq in Hc. rewrite Hc. reflexivity.
Qed.

Lemma IS_normalises_the_dot_witness :
  ctx.IS exampleLib exampleCtx "html" = Done true.
Proof.
  rewrite (proj2 (proj2 (IS_normalises_the_dot exampleLib exampleCtx "html"))
             "h"%char "tml" eq_refl ltac:(discriminate)).
  apply (proj1 (proj2 (IS_normalises_the_dot exampleLib exampleCtx "html"))).
  simpl. tauto.
Defined.

Lemma skipn_nth_cons {A : Type} (l : list A) (i : nat) :
  i < List.length l ->
  exists v, nth_error l i = Some v /\ skipn i l = v :: skipn (S i) l.
Proof.
  revert i. induction l as [|x l IH]; intros i Hi; simpl in Hi; [lia|].
  destruct i as [|i].
  - exists x. split; reflexivity.
  - destruct (IH i) as [v [Hn Hs]]; [lia|].
    exists v. split; [exact Hn|exact Hs].
Qed.

Lemma Params_from_lookup (values : list string) (key : string) (names : list string) :
  forall i,
    i + List.length names <= List.length values ->
    ctx.Params_from values key i names
    = Done match find (fun p => (fst p =? key)%string) (combine names (skipn i values)) with
           | Some p => snd p
           | None => ""
           end.
Proof.
  induction names as [|n names IH]; intros i Hi; [reflexivity|].
  simpl in Hi.
  destruct (skipn_nth_cons values i) as [v [Hn Hs]]; [lia|].
  rewrite Hs. cbn [ctx.Params_from combine find fst snd].
  destruct (n =? key)%string.
  - unfold index. now rewrite Hn.
  - apply IH. lia.
Qed.

(** With at least as many values as parameter names, [Params] is the
    lookup of the key among the (name, value) pairs of the route: the
    value of the first pair with that name, and the empty string when no
    name matches. *)
Theorem Params_is_first_match_lookup (c : Ctx) (key : string) (names : list string) :
  ctx_params c = Some names ->
  List.length names <= List.length (ctx_values c) ->
  ctx.Params c key
  = Done match find (fun p => (fst p =? key)%string) (combine names (ctx_values c)) with
         | Some p => snd p
         | None => ""
         end.
Proof.
  intros Hp Hl. unfold ctx.Params. rewrite Hp.
  now rewrite (Params_from_lookup (ctx_values c) key names 0 Hl).
Qed.

Lemma Params_is_first_match_lookup_witness :
  ctx.Params exampleCtx "id" = Done "7" /\ ctx.Params exampleCtx "page" = Done "".
Proof.
  split.
  - rewrite (Params_is_first_match_lookup exampleCtx "id" ["id"; "name"; "id"] eq_refl);
      [reflexivity|simpl; lia].
  - rewrite (Params_is_first_match_lookup exampleCtx "page" ["id"; "name"; "id"] eq_refl);
      [reflexivity|simpl; lia].
Defined.

Lemma Params_from_absent (values : list string) (key : string) (names : list string) :
  forall i, ~ In key names -> ctx.Params_from values key i names = Done "".
Proof.
  induction names as [|n names IH]; intros i Hn; [reflexivity|].
  simpl. destruct (n =? key)%string eqn:He.
  - apply String.eqb_eq in He. subst n. exfalso. apply Hn. now left.
  - apply IH. intros H. apply Hn. now right.
Qed.

Lemma Params_from_short (values : list string) (key : string)
    (pre post : list string) :
  forall i,
    ~ In key pre -> List.length values <= i + List.length pre ->
    ctx.Params_from values key i (pre ++ key :: post) = Panics.
Proof.
  induction pre as [|n pre IH]; intros i Hn Hl; simpl.
  - rewrite String.eqb_refl. unfold index.
    replace (nth_error values i) with (@None string); [reflexivity|].
    symmetry. apply nth_error_None. simpl in Hl. lia.
  - destruct (n =? key)%string eqn:He.
    + apply String.eqb_eq in He. subst n. exfalso. apply Hn. now left.
    + apply IH; [intros H; apply Hn; now right|simpl in Hl; lia].
Qed.

(** [Params] returns the empty string for a key that is no parameter
    name, however many values there are; it panics when the context has
    no parameter list, and when the first match of the key stands at a
    position that has no value. *)
Theorem Params_missing_key_and_missing_value (c : Ctx) (key : string) :
  (ctx_params c = None -> ctx.Params c key = Panics)
  /\ (forall names,
        ctx_params c = Some names -> ~ In key names -> ctx.Params c key = Done "")
  /\ (forall pre post,
        ctx_params c = Some (pre ++ key :: post)%list -> ~ In key pre ->
        List.length (ctx_values c) <= List.length pre ->
        ctx.Params c key = Panics).
Proof.
  unfold ctx.Params. repeat split.
  - intros H. now rewrite H.
  - intros names H Hn. rewrite H. now apply Params_from_absent.
  - intros pre post H Hn Hl. rewrite H. now apply Params_from_short.
Qed.

Lemma Params_missing_key_and_missing_value_witness :
  ctx.Params (mkCtx (fun _ => "") "h" false (Some ["a"; "b"]) ["1"]) "b" = Panics.
Proof.
  apply (proj2 (proj2 (Params_missing_key_and_missing_value
                         (mkCtx (fun _ => "") "h" false (Some ["a"; "b"]) ["1"]) "b"))
           ["a"] []).
  - reflexivity.
  - simpl. intros [H|[]]. discriminate.
  - simpl. lia.
Defined.

(** [Subdomains] with offset [o], 2 when none is given, returns the
    labels of the host name without the last [o]; it panics when [o] is
    negative or exceeds the number of labels, so with the default offset
    it panics on a host name without a dot. *)
Theorem Subdomains_drops_last_labels (c : Ctx) (o : Z) :
  let labels := Split "." (ctx.Hostname c) in
  let n := Z.of_nat (List.length labels) in
  ((0 <= o <= n)%Z ->
   ctx.Subdomains c [o] = Done (firstn (Z.to_nat (n - o)) labels))
  /\ ((o < 0 \/ n < o)%Z -> ctx.Subdomains c [o] = Panics)
  /\ ctx.Subdomains c [] = ctx.Subdomains c [2%Z]
  /\ (count_byte "." (ctx.Hostname c) = 0 -> ctx.Subdomains c [] = Panics).
Proof.
  intros labels n.
  assert (H1 : (0 <= o <= n)%Z ->
               ctx.Subdomains c [o] = Done (firstn (Z.to_nat (n - o)) labels)).
  { intros Ho. unfold ctx.Subdomains. fold labels. fold n.
    replace (n - o <? 0)%Z with false by (symmetry; apply Z.ltb_ge; lia).
    replace (n <? n - o)%Z with false by (symmetry; apply Z.ltb_ge; lia).
    reflexivity. }
  assert (H2 : forall o', (o' < 0 \/ n < o')%Z -> ctx.Subdomains c [o'] = Panics).
  { intros o' Ho. unfold ctx.Subdomains. fold labels. fold n.
    destruct Ho as [Ho|Ho].
    - replace (n <? n - o')%Z with true by (symmetry; apply Z.ltb_lt; lia).
      now rewrite orb_true_r.
    - replace (n - o' <? 0)%Z with true by (symmetry; apply Z.ltb_lt; lia).
      reflexivity. }
  split; [exact H1|]. split; [apply H2|]. split; [reflexivity|].
  intros Hc. change (ctx.Subdomains c []) with (ctx.Subdomains c [2%Z]).
  apply H2. right. unfold n, labels. rewrite Split_length, Hc. simpl. lia.
Qed.

Lemma Subdomains_drops_last_labels_witness :
  ctx.Subdomains exampleCtx [] = Done ["api"; "eu"]
  /\ ctx.Subdomains (mkCtx (fun _ => "") "localhost" false None []) [] = Panics.
Proof.
  split.
  - change (ctx.Subdomains exampleCtx []) with (ctx.Subdomains exampleCtx [2%Z]).
    rewrite (proj1 (Subdomains_drops_last_labels exampleCtx 2)); [reflexivity|].
    simpl. lia.
  - apply (proj2 (proj2 (proj2 (Subdomains_drops_last_labels
                                  (mkCtx (fun _ => "") "localhost" false None []) 2)))).
    reflexivity.
Defined.

(** ** Basic authentication *)

Lemma IndexByte_cut (c : ascii) (s : string) (n : nat) :
  IndexByte c s = Some n ->
  s = substring 0 n s ++ String c (substring (n + 1) (String.length s - (n + 1)) s)
  /\ IndexByte c (substring 0 n s) = None.
Proof.
  revert n. induction s as [|d s IH]; intros n; simpl; [discriminate|].
  destruct (d =? c)%char eqn:Hd.
  - intros H. inversion H. subst n. apply Ascii.eqb_eq in Hd. subst d. simpl.
    rewrite Nat.sub_0_r. split; [|reflexivity].
    f_equal. clear. induction s as [|e s IH]; simpl; [reflexivity|].
    now rewrite <- IH.
  - destruct (IndexByte c s) as [m|] eqn:Hm; [|discriminate].
    intros H. inversion H. subst n. destruct (IH m eq_refl) as [H1 H2].
    simpl. rewrite Hd, H2. split; [|reflexivity].
    f_equal. exact H1.
Qed.

(** [BasicAuth] prints its deprecation line on every call.  When it
    reports [ok], the Authorization header is at least as long as
    "Basic ", what follows its first six bytes decodes to the user, a
    colon and the password, and the user holds no colon; the password
    may.  When it does not report [ok], user and password are empty. *)
Theorem BasicAuth_splits_at_first_colon (L : CtxLib) (c : Ctx) :
  let auth := ctx.Get c HeaderAuthorization in
  let user := fst (fst (snd (ctx.BasicAuth L c))) in
  let pass := snd (fst (snd (ctx.BasicAuth L c))) in
  let ok := snd (snd (ctx.BasicAuth L c)) in
  fst (ctx.BasicAuth L c) = ctx.deprecated_BasicAuth
  /\ (ok = true ->
      6 <= String.length auth
      /\ EqualFold L (substring 0 6 auth) "Basic " = true
      /\ base64_DecodeString L (substring 6 (String.length auth - 6) auth)
         = inl (user ++ ":" ++ pass)
      /\ IndexByte ":" user = None)
  /\ (ok = false -> user = "" /\ pass = "").
Proof.
  intros auth user pass ok. subst user pass ok. unfold ctx.BasicAuth. fold auth.
  cbn [fst snd]. split; [reflexivity|].
  destruct (auth =? "")%string; [split; [discriminate|split; reflexivity]|].
  change (String.length "Basic ") with 6.
  destruct (String.length auth <? 6)%nat eqn:Hlen;
    [split; [discriminate|split; reflexivity]|].
  destruct (EqualFold L (substring 0 6 auth) "Basic ") eqn:Hf; simpl orb; cbv iota;
    [|split; [discriminate|split; reflexivity]].
  destruct (base64_DecodeString L (substring 6 (String.length auth - 6) auth))
    as [cs|e] eqn:Hd; [|split; [discriminate|split; reflexivity]].
  destruct (IndexByte ":" cs) as [s|] eqn:Hi; [|split; [discriminate|split; reflexivity]].
  cbn [fst snd]. split; [|discriminate].
  intros _. apply Nat.ltb_ge in Hlen.
  destruct (IndexByte_cut ":" cs s Hi) as [Hcut Hno].
  split; [exact Hlen|]. split; [reflexivity|]. split; [|exact Hno].
  f_equal. exact Hcut.
Qed.

Lemma BasicAuth_splits_at_first_colon_witness :
  snd (ctx.BasicAuth exampleLib exampleCtx) = ("alice", "open:sesame", true)
  /\ IndexByte ":" "alice" = None.
Proof.
  split; [reflexivity|].
  apply (proj1 (proj2 (BasicAuth_splits_at_first_colon exampleLib exampleCtx))).
  reflexivity.
Defined.
